(** * SafetySpeak: the job queue processor and the audio playback controller

    A shallow embedding of [App.tsx] (the queue processing effect, the queue
    handlers, the audio handlers, the file and text-input handlers, the
    extra-language buttons), of [services/geminiService.ts]
    ([extractTextFromFile], [translateSafetyText], [generateSpeech]), of
    [services/fileUtils.ts] ([isValidFileType], [isValidFileSize], the
    data-URL split of [fileToBase64]) and of [types.ts].

    Strings are modelled as [String.string] (one [ascii] per character; the
    JS length in UTF-16 code units becomes [String.length]; the Korean
    message literals are stored as their UTF-8 bytes, and the long texts of
    the scenarios are ASCII, where both lengths agree).  Time is
    modelled with rationals [Q] (the Web Audio clock [ctx.currentTime]). *)

From Stdlib Require Import String Ascii List Bool Arith Lia NArith QArith Sorting.Sorted.
Import ListNotations.
Open Scope string_scope.

(** ** Types ([types.ts]) *)

Inductive TargetLanguage :=
| KOREAN | ENGLISH | CHINESE | VIETNAMESE | RUSSIAN | UZBEK.

Definition TargetLanguage_eqb (a b : TargetLanguage) : bool :=
  match a, b with
  | KOREAN, KOREAN | ENGLISH, ENGLISH | CHINESE, CHINESE
  | VIETNAMESE, VIETNAMESE | RUSSIAN, RUSSIAN | UZBEK, UZBEK => true
  | _, _ => false
  end.

Inductive ProcessStatus :=
| idle | extracting | translating | speaking | completed | error.

Definition ProcessStatus_eqb (a b : ProcessStatus) : bool :=
  match a, b with
  | idle, idle | extracting, extracting | translating, translating
  | speaking, speaking | completed, completed | error, error => true
  | _, _ => false
  end.

(** A browser [File]: only its name and byte size are observed. *)
Record File := mkFile { name : string; size : N }.

(** A decoded Web Audio [AudioBuffer]: a handle and its duration (s). *)
Record AudioBuffer := mkAudioBuffer { buffer_handle : nat; duration : Q }.

(** [QueueItem]; an optional field ([file?], [error?], ...) is an [option];
    [audioBuffer?: AudioBuffer | null] is [option AudioBuffer], with
    [undefined] and [null] both [None]. *)
Record QueueItem := mkQueueItem {
  id : string;
  file : option File;
  fileName : string;
  originalText : string;
  translatedText : option string;
  targetLanguage : TargetLanguage;
  status : ProcessStatus;
  item_error : option string;
  audioBuffer : option AudioBuffer
}.

Record AppState := mkAppState {
  queue : list QueueItem;
  selectedLanguage : TargetLanguage;
  isProcessingQueue : bool;
  currentItemId : option string;
  globalError : option string;
  autoPlay : bool
}.

(** ** String helpers (the JS string methods the code uses) *)

(** [String.prototype.trim] removes white space at both ends; the ASCII white
    space characters are TAB, LF, VT, FF, CR and SPACE. *)
Definition is_ws (c : ascii) : bool :=
  let n := nat_of_ascii c in
  ((Nat.eqb n 32) || ((9 <=? n) && (n <=? 13)))%nat.

Fixpoint trim_start (s : string) : string :=
  match s with
  | EmptyString => EmptyString
  | String c r => if is_ws c then trim_start r else s
  end.

Fixpoint rev_string (s : string) : string :=
  match s with
  | EmptyString => EmptyString
  | String c r => rev_string r ++ String c EmptyString
  end.

Definition trim (s : string) : string :=
  rev_string (trim_start (rev_string (trim_start s))).

(** [s.slice(0, n)]. *)
Definition slice0 (s : string) (n : nat) : string := substring 0 n s.

(** ASCII [toLowerCase]. *)
Definition lower_ascii (c : ascii) : ascii :=
  let n := nat_of_ascii c in
  if ((65 <=? n) && (n <=? 90))%nat then ascii_of_nat (n + 32)%nat else c.

Fixpoint toLowerCase (s : string) : string :=
  match s with
  | EmptyString => EmptyString
  | String c r => String (lower_ascii c) (toLowerCase r)
  end.

(** [s.endsWith(suf)]. *)
Definition endsWith (s suf : string) : bool :=
  (String.length suf <=? String.length s)%nat &&
  String.eqb (substring (String.length s - String.length suf)
                        (String.length suf) s) suf.

(** [s.includes(sub)]. *)
Fixpoint includes (s sub : string) : bool :=
  prefix sub s ||
  match s with
  | EmptyString => false
  | String _ r => includes r sub
  end.

(** JS truthiness of a string. *)
Definition truthy (s : string) : bool := negb (String.eqb s "").

(** ** File validation ([services/fileUtils.ts]) *)

Definition MAX_FILE_SIZE_MB : N := 3.
Definition MAX_FILE_SIZE_BYTES : N := MAX_FILE_SIZE_MB * 1024 * 1024.

Definition validExtensions : list string :=
  [".docx"; ".xlsx"; ".pptx"; ".hwp"; ".txt"; ".pdf"].

Definition isValidFileType (f : File) : bool :=
  let fileName := toLowerCase (name f) in
  existsb (fun ext => endsWith fileName ext) validExtensions.

Definition isValidFileSize (f : File) : bool :=
  (size f <=? MAX_FILE_SIZE_BYTES)%N.

(** ** A small error-and-log monad for the async pipeline

    A stage either resolves ([Ok]) or rejects with an [Error] whose message
    is kept ([Err]).  The pipeline's observable effects are the
    [updateItemStatus] calls it issues (in order) and the calls it makes to
    the stage gateway; both are logged, and a rejection keeps the effects
    already performed, as a thrown exception does. *)

Inductive Result (A : Type) :=
| Ok (a : A)
| Err (message : string).
Arguments Ok {A} a.
Arguments Err {A} message.

(** [Partial<QueueItem>] as passed to [updateItemStatus]: [None] for a key
    absent from the object literal; for [error] and [audioBuffer], [Some None]
    is a key present with value [undefined] or [null]. *)
Record Update := mkUpdate {
  u_status : option ProcessStatus;
  u_originalText : option string;
  u_translatedText : option string;
  u_error : option (option string);
  u_audioBuffer : option (option AudioBuffer)
}.

Definition no_update : Update := mkUpdate None None None None None.
Definition set_status (st : ProcessStatus) : Update :=
  mkUpdate (Some st) None None None None.
Definition set_originalText (t : string) : Update :=
  mkUpdate None (Some t) None None None.
Definition set_translatedText (t : string) : Update :=
  mkUpdate None None (Some t) None None.

Definition override {A} (o : option A) (d : A) : A :=
  match o with Some a => a | None => d end.

(** [{ ...item, ...updates }]. *)
Definition merge (item : QueueItem) (u : Update) : QueueItem :=
  mkQueueItem (id item) (file item) (fileName item)
    (override (u_originalText u) (originalText item))
    (match u_translatedText u with
     | Some t => Some t | None => translatedText item end)
    (targetLanguage item)
    (override (u_status u) (status item))
    (override (u_error u) (item_error item))
    (override (u_audioBuffer u) (audioBuffer item)).

(** Calls made to the stage gateway, and the simulated delay. *)
Inductive Event :=
| EExtract (f : File)
| ETranslate (text : string) (lang : TargetLanguage)
| EDelay (ms : nat)
| ESynthesize (text : string).

Record Log := mkLog { log_updates : list Update; log_events : list Event }.
Definition empty_log : Log := mkLog [] [].

Definition M (A : Type) : Type := Log -> Log * Result A.

Definition ret {A} (a : A) : M A := fun l => (l, Ok a).
Definition throw {A} (msg : string) : M A := fun l => (l, Err msg).
Definition bind {A B} (m : M A) (k : A -> M B) : M B :=
  fun l => match m l with
           | (l', Ok a) => k a l'
           | (l', Err e) => (l', Err e)
           end.
(** [try { m } catch (e) { h(e.message) }]. *)
Definition try_catch {A} (m : M A) (h : string -> M A) : M A :=
  fun l => match m l with
           | (l', Err e) => h e l'
           | r => r
           end.
Definition updateItem (u : Update) : M unit :=
  fun l => (mkLog (log_updates l ++ [u]) (log_events l), Ok tt).
Definition emit (e : Event) : M unit :=
  fun l => (mkLog (log_updates l) (log_events l ++ [e]), Ok tt).
Definition lift {A} (r : Result A) : M A := fun l => (l, r).

Notation "x <- m ;; k" := (bind m (fun x => k))
  (at level 61, m at next level, right associativity).
Notation "m ;;; k" := (bind m (fun _ => k))
  (at level 61, right associativity).

(** ** The stage gateway ([services/geminiService.ts]) *)

Definition MAX_INPUT_LENGTH : nat := 10000.

Definition msg_api_key : string :=
  "API 키가 설정되지 않았습니다. .env 파일에 키를 넣거나, GitHub Settings > Secrets에 'API_KEY'를 추가해주세요.".

Section Gateway.

(** [validateApiKey] succeeds. *)
Variable apiKeyValid : bool.
(** [extractTextFromFile]: the format parsers and the PDF model call read the
    file's content, which is not modelled; the result per file is given. *)
Variable extractTextFromFile : File -> Result string.
(** The translation model call: its [response.text] ([""] when absent), or the
    message it rejected with. *)
Variable translate_request : string -> TargetLanguage -> Result string.
(** The speech model call: the base64 payload of its first part, if any (an
    empty payload is falsy in [!base64Audio] and is given here as [None]). *)
Variable tts_request : string -> Result (option string).
(** [decodeAudioData] of the decoded payload. *)
Variable decodeAudioData : string -> option AudioBuffer.

Definition translateSafetyText (text : string) (targetLang : TargetLanguage)
  : Result string :=
  if negb apiKeyValid then Err msg_api_key else
  match translate_request text targetLang with
  | Err m => Err ("번역 실패: " ++ (if truthy m then m else "알 수 없는 오류"))
  | Ok translated =>
      if truthy translated then Ok (trim translated)
      else Err ("번역 실패: " ++ "Translation failed: Empty response")
  end.

Definition tts_error_message (m : string) : string :=
  let errorMessage := "음성 생성에 실패했습니다." in
  if truthy m then
    if includes m "400" then errorMessage ++ " (요청 형식이 잘못되었습니다)"
    else if includes m "429" then errorMessage ++ " (요청이 너무 많습니다)"
    else errorMessage ++ " (" ++ m ++ ")"
  else errorMessage.

Definition msg_too_long : string :=
  "번역된 텍스트가 너무 길어(4000자 초과) 음성으로 변환할 수 없습니다. 내용을 나누어 입력해주세요.".

Definition generateSpeech (text : string) : Result AudioBuffer :=
  if negb apiKeyValid then Err msg_api_key else
  if (4000 <? String.length text)%nat then Err msg_too_long
  else
    let attempt :=
      match tts_request text with
      | Err m => Err m
      | Ok None => Err "모델이 오디오 데이터를 반환하지 않았습니다."
      | Ok (Some base64Audio) =>
          match decodeAudioData base64Audio with
          | Some audioBuffer => Ok audioBuffer
          | None => Err "오디오 데이터 디코딩에 실패했습니다."
          end
      end in
    match attempt with
    | Ok b => Ok b
    | Err m => Err (tts_error_message m)
    end.

(** The awaited calls of [processNext], each logged. *)
Definition call_extract (f : File) : M string :=
  emit (EExtract f) ;;; lift (extractTextFromFile f).
Definition call_translate (text : string) (lang : TargetLanguage) : M string :=
  emit (ETranslate text lang) ;;; lift (translateSafetyText text lang).
Definition call_generateSpeech (text : string) : M AudioBuffer :=
  emit (ESynthesize text) ;;; lift (generateSpeech text).

(** ** The per-item pipeline (the [try] block of [processNext]) *)

(** 1. Extraction (if needed). *)
Definition extraction_stage (nextItem : QueueItem) : M string :=
  let textToTranslate := originalText nextItem in
  match file nextItem with
  | Some f =>
      if negb (truthy textToTranslate) then
        updateItem (set_status extracting) ;;;
        try_catch
          (t <- call_extract f ;;
           let t' := if (MAX_INPUT_LENGTH <? String.length t)%nat
                     then slice0 t MAX_INPUT_LENGTH else t in
           updateItem (set_originalText t') ;;;
           ret t')
          (fun m => throw ("파일 읽기 실패: " ++ m))
      else ret textToTranslate
  | None => ret textToTranslate
  end.

(** JS truthiness of [nextItem.file]. *)
Definition has_file (it : QueueItem) : bool :=
  match file it with Some _ => true | None => false end.

Definition msg_no_text : string := "번역할 텍스트가 없습니다.".
Definition msg_empty : string := "텍스트를 추출할 수 없거나 내용이 비어있습니다.".

(** 2. Translation (skipped for Korean, with a 300 ms delay). *)
Definition translation_stage (nextItem : QueueItem) (textToTranslate : string)
  : M string :=
  if TargetLanguage_eqb (targetLanguage nextItem) KOREAN then
    emit (EDelay 300) ;;; ret textToTranslate
  else call_translate textToTranslate (targetLanguage nextItem).

Definition msg_tts_failed : string := "음성 생성 실패".

(** The final update: [{ status: 'completed', audioBuffer, error }]. *)
Definition completion_update (audioBuffer : option AudioBuffer) : Update :=
  mkUpdate (Some completed) None None
    (Some (match audioBuffer with Some _ => None | None => Some msg_tts_failed end))
    (Some audioBuffer).

Definition pipeline (nextItem : QueueItem) : M unit :=
  textToTranslate <- extraction_stage nextItem ;;
  (if negb (truthy textToTranslate) && negb (has_file nextItem)
   then throw msg_no_text else ret tt) ;;;
  (if negb (truthy (trim textToTranslate)) then throw msg_empty else ret tt) ;;;
  updateItem (set_status translating) ;;;
  translated <- translation_stage nextItem textToTranslate ;;
  updateItem (set_translatedText translated) ;;;
  (* 3. TTS generation *)
  updateItem (set_status speaking) ;;;
  audioBuffer <- try_catch (b <- call_generateSpeech translated ;; ret (Some b))
                           (fun _ => ret None) ;;
  updateItem (completion_update audioBuffer).

Definition msg_default : string := "처리 중 오류 발생".

Definition error_update (m : string) : Update :=
  mkUpdate (Some error) None None
    (Some (Some (if truthy m then m else msg_default))) None.

(** The [try ... catch (error)] of [processNext] for one item: the log of its
    updates and gateway calls. *)
Definition process_item (nextItem : QueueItem) : Log :=
  fst (try_catch (pipeline nextItem)
         (fun m => updateItem (error_update m)) empty_log).

(** The item as the queue holds it once its pipeline has finished. *)
Definition final_item (nextItem : QueueItem) : QueueItem :=
  fold_left merge (log_updates (process_item nextItem)) nextItem.

Definition events (nextItem : QueueItem) : list Event :=
  log_events (process_item nextItem).

End Gateway.

(** ** Queue state updates ([App.tsx]) *)

Definition with_queue (s : AppState) (q : list QueueItem) : AppState :=
  mkAppState q (selectedLanguage s) (isProcessingQueue s) (currentItemId s)
    (globalError s) (autoPlay s).
Definition with_processing (s : AppState) (b : bool) (cur : option string)
  : AppState :=
  mkAppState (queue s) (selectedLanguage s) b cur (globalError s) (autoPlay s).
Definition with_globalError (s : AppState) (e : option string) : AppState :=
  mkAppState (queue s) (selectedLanguage s) (isProcessingQueue s)
    (currentItemId s) e (autoPlay s).

Definition addToQueue (items : list QueueItem) (s : AppState) : AppState :=
  with_globalError (with_queue s (queue s ++ items)) None.

Definition updateItemStatus (itemId : string) (u : Update) (q : list QueueItem)
  : list QueueItem :=
  map (fun item => if String.eqb (id item) itemId then merge item u else item) q.

Definition is_idle (item : QueueItem) : bool := ProcessStatus_eqb (status item) idle.

(** ** The processing effect

    [useEffect(..., [state.isProcessingQueue, state.queue, state.currentItemId])]
    calls [processNext] when [state.isProcessingQueue && !state.currentItemId].
    A later render that changes one of the three dependencies runs the
    effect's cleanup, which sets that instance's [isCancelled]; the
    [setTimeout] at the end of [processNext] then does nothing. *)

Definition effect_guard (s : AppState) : bool :=
  isProcessingQueue s &&
  match currentItemId s with None => true | Some c => negb (truthy c) end.

Definition option_string_eqb (a b : option string) : bool :=
  match a, b with
  | Some x, Some y => String.eqb x y
  | None, None => true
  | _, _ => false
  end.

Section Processor.
Variable apiKeyValid : bool.
Variable extractTextFromFile : File -> Result string.
Variable translate_request : string -> TargetLanguage -> Result string.
Variable tts_request : string -> Result (option string).
Variable decodeAudioData : string -> option AudioBuffer.

Definition process_item' : QueueItem -> Log :=
  process_item apiKeyValid extractTextFromFile translate_request tts_request
    decodeAudioData.

(** One run of [processNext] from the state it was created in: the state
    after it, and whether its final [setTimeout] calls [processNext] again
    (its effect instance was not cancelled). *)
Definition processNext (s : AppState) : AppState * bool :=
  if negb (isProcessingQueue s) then (s, false) else
  match find is_idle (queue s) with
  | None => (with_processing s false None, false)
  | Some nextItem =>
      let s1 := with_processing s true (Some (id nextItem)) in
      let log := process_item' nextItem in
      let q2 := fold_left (fun q u => updateItemStatus (id nextItem) u q)
                  (log_updates log) (queue s1) in
      (* [setState({currentItemId})] and every [updateItemStatus] (which
         builds a new [queue] array) change a dependency of the effect *)
      let isCancelled :=
        negb (option_string_eqb (currentItemId s) (Some (id nextItem)))
        || negb (match log_updates log with [] => true | _ => false end) in
      (with_queue s1 q2, negb isCancelled)
  end.

(** The driving loop: [processNext] runs again when its own timer is not
    cancelled, or when the effect of the latest render fires. *)
Fixpoint drive (fuel : nat) (s : AppState) : AppState :=
  match fuel with
  | O => s
  | S n =>
      let '(s', continues) := processNext s in
      if continues || effect_guard s' then drive n s' else s'
  end.

End Processor.

(** [toggleProcessing] when stopped: start, then the effect fires. *)
Definition toggleProcessing (s : AppState) : AppState :=
  if isProcessingQueue s then with_processing s false (currentItemId s)
  else with_processing s true None.

(** ** File handlers

    [generateId] draws a random id; the [n]-th id drawn is [genId n]. *)

Fixpoint build_items (genId : nat -> string) (n : nat)
    (lang : TargetLanguage) (files : list File) : list QueueItem :=
  match files with
  | [] => []
  | f :: fs =>
      if isValidFileType f then
        mkQueueItem (genId n) (Some f) (name f) "" None lang idle None None
          :: build_items genId (S n) lang fs
      else build_items genId n lang fs
  end.

Definition msg_unsupported : string :=
  "지원되지 않는 파일 형식이 포함되어 있습니다.".

Definition handleFiles (genId : nat -> string) (fileList : option (list File))
    (s : AppState) : AppState :=
  match fileList with
  | None => s
  | Some files =>
      let newItems := build_items genId 0 (selectedLanguage s) files in
      if (Nat.eqb (List.length newItems) 0) && (0 <? List.length files)%nat
      then with_globalError s (Some msg_unsupported)
      else addToQueue newItems s
  end.

(** ** Audio handlers ([App.tsx])

    The refs ([audioSourceRef], [startTimeRef], [offsetRef],
    [animationFrameRef]) and the React state ([playingItemId], [isPaused],
    [playbackProgress]) with the audio clock [ctx.currentTime].  A handler
    reads the React state of the render it was created in, which for a click
    is the current state.  [source.onended] is a closure created by
    [playAudio]: it keeps the [isPaused] of the render that created it, given
    here as [Some captured]; [None] is [onended = null]. *)

Record Source := mkSource {
  src_buffer : AudioBuffer;
  src_onended : option bool;
  src_startOffset : Q
}.

Record Player := mkPlayer {
  audioSourceRef : option Source;
  startTimeRef : Q;
  offsetRef : Q;
  playingItemId : option string;
  isPaused : bool;
  playbackProgress : Q;
  animationFrameRef : bool;  (* a progress frame is requested *)
  currentTime : Q            (* ctx.currentTime *)
}.

Definition qmin (a b : Q) : Q := if Qle_bool a b then a else b.

Definition stopAudio (p : Player) : Player :=
  mkPlayer None (startTimeRef p) 0 None false 0 false (currentTime p).

(** The first part of [playAudio]: releasing a previous session. *)
Definition playAudio_release (p : Player) (itemId : string) (resume : bool)
  : Player :=
  let p1 :=
    if negb resume &&
       match playingItemId p with
       | Some cur => truthy cur && negb (String.eqb cur itemId)
       | None => false
       end
    then stopAudio p else p in
  match audioSourceRef p1 with
  | Some _ => if negb resume then stopAudio p1 else p1
  | None => p1
  end.

(** The rest of [playAudio] ([ctx] is running, so [ctx.resume()] is not
    awaited): a new source started at [startOffset], whose [onended] closure
    keeps the render's [renderIsPaused]. *)
Definition playAudio_start (renderIsPaused : bool) (p : Player)
    (buffer : AudioBuffer) (itemId : string) (resume : bool) : Player :=
  let startOffset := if resume then offsetRef p else 0 in
  let source := mkSource buffer (Some renderIsPaused) startOffset in
  mkPlayer (Some source) (currentTime p)
    (if resume then offsetRef p else 0)
    (Some itemId) false (playbackProgress p) true (currentTime p).

Definition playAudio (p : Player) (buffer : AudioBuffer) (itemId : string)
    (resume : bool) : Player :=
  playAudio_start (isPaused p) (playAudio_release p itemId resume)
    buffer itemId resume.

Definition pauseAudio (p : Player) : Player :=
  match audioSourceRef p with
  | None => p
  | Some _ =>
      let elapsed := currentTime p - startTimeRef p in
      mkPlayer None (startTimeRef p) (offsetRef p + elapsed) (playingItemId p)
        true (playbackProgress p) false (currentTime p)
  end.

(** [updateProgress]: the value it computes at the current clock. *)
Definition totalElapsed (p : Player) : Q :=
  offsetRef p + (currentTime p - startTimeRef p).

Definition progress_of (total d : Q) : Q := qmin (total / d * 100) 100.

Definition progress_sample (p : Player) : Q :=
  match audioSourceRef p with
  | Some src => progress_of (totalElapsed p) (duration (src_buffer src))
  | None => playbackProgress p
  end.

(** An animation frame runs [updateProgress]. *)
Definition updateProgress (p : Player) : Player :=
  match audioSourceRef p with
  | Some _ =>
      if animationFrameRef p then
        let progress := progress_sample p in
        mkPlayer (audioSourceRef p) (startTimeRef p) (offsetRef p)
          (playingItemId p) (isPaused p) progress
          (negb (Qle_bool 100 progress)) (currentTime p)
      else p
  | None => p
  end.

(** Wall-clock time passes. *)
Definition advance (dt : Q) (p : Player) : Player :=
  mkPlayer (audioSourceRef p) (startTimeRef p) (offsetRef p) (playingItemId p)
    (isPaused p) (playbackProgress p) (animationFrameRef p) (currentTime p + dt).

(** The playing source has emitted its buffer to the end. *)
Definition reached_end (p : Player) : bool :=
  match audioSourceRef p with
  | Some src =>
      Qle_bool (duration (src_buffer src))
               (src_startOffset src + (currentTime p - startTimeRef p))
  | None => false
  end.

(** The source fires [onended] when it reaches its end:
    [if (!isPaused) stopAudio()], with the captured [isPaused]. *)
Definition natural_end (p : Player) : Player :=
  if reached_end p then
    match audioSourceRef p with
    | Some src =>
        match src_onended src with
        | Some capturedIsPaused => if negb capturedIsPaused then stopAudio p else p
        | None => p
        end
    | None => p
    end
  else p.

(** The play/pause button of a completed item with audio. *)
Definition play_button (p : Player) (item_audio : AudioBuffer) (itemId : string)
  : Player :=
  if option_string_eqb (playingItemId p) (Some itemId) then
    if isPaused p then playAudio p item_audio itemId true else pauseAudio p
  else playAudio p item_audio itemId false.

(** ** The whole component state *)

Record Model := mkModel { app : AppState; player : Player }.

Definition removeFromQueue (m : Model) (itemId : string) : Model :=
  let app' := with_queue (app m)
                (filter (fun item => negb (String.eqb (id item) itemId))
                        (queue (app m))) in
  let player' := if option_string_eqb (playingItemId (player m)) (Some itemId)
                 then stopAudio (player m) else player m in
  mkModel app' player'.

Definition clearQueue (m : Model) : Model :=
  mkModel (with_processing (with_queue (app m) []) false None)
          (stopAudio (player m)).

(** * Scenarios *)

(** The text the extraction stage stores for an extracted document. *)
Definition clipped (t : string) : string :=
  if (MAX_INPUT_LENGTH <? String.length t)%nat then slice0 t MAX_INPUT_LENGTH
  else t.

(** A plain-text document (read as it is by [fileToText]) that is longer than
    [MAX_INPUT_LENGTH] and whose first [MAX_INPUT_LENGTH] characters are
    white space. *)
Fixpoint spaces (n : nat) : string :=
  match n with O => "" | S k => String " " (spaces k) end.

Definition long_notice : string := spaces MAX_INPUT_LENGTH ++ "a".

Definition notice_file : File := mkFile "notice.txt" 10001.

Definition notice_item : QueueItem :=
  mkQueueItem "n1" (Some notice_file) "notice.txt" "" None ENGLISH idle None None.

Definition sample_buffer : AudioBuffer := mkAudioBuffer 1 3.

(** A queue whose first item fails. *)

Definition msg_hwp : string :=
  "HWP 및 PPTX 파일은 현재 직접 처리가 어렵습니다. 내용을 복사하여 붙여넣거나 PDF로 변환하여 업로드해주세요.".

(** [extractTextFromFile] on HWP files rejects; other files read as given. *)
Definition demo_extract (f : File) : Result string :=
  let lowerName := toLowerCase (name f) in
  if endsWith lowerName ".hwp" || endsWith lowerName ".pptx" then Err msg_hwp
  else Ok "Wear a helmet.".

Definition demo_translate (text : string) (lang : TargetLanguage) : Result string :=
  Ok ("[translated] " ++ text).
Definition demo_tts (text : string) : Result (option string) := Ok (Some "UklGRg==").
Definition demo_decode (b64 : string) : option AudioBuffer := Some sample_buffer.

Definition hwp_item : QueueItem :=
  mkQueueItem "k3x9a1b2c" (Some (mkFile "report.hwp" 20000)) "report.hwp" ""
    None CHINESE idle None None.
Definition text_item : QueueItem :=
  mkQueueItem "p7q2r8s1t" None "직접 입력한 텍스트" "안전모를 착용하십시오."
    None KOREAN idle None None.

Definition demo_state : AppState :=
  mkAppState [hwp_item; text_item] CHINESE false None None true.

(** The playback controller on a three-second buffer. *)

Definition silent_player : Player := mkPlayer None 0 0 None false 0 false 0.

(** Play an item, pause it after one second, resume it, and let it reach
    the end of its three-second buffer. *)
Definition resumed_to_end : Player :=
  let p1 := play_button silent_player sample_buffer "p7q2r8s1t" in
  let p2 := play_button (advance 1 p1) sample_buffer "p7q2r8s1t" in
  let p3 := play_button p2 sample_buffer "p7q2r8s1t" in
  advance 2 p3.

Definition paused_has_no_source (p : Player) : Prop :=
  isPaused p = true -> audioSourceRef p = None.

(** Longer plain-text inputs (ASCII, so that [String.length] is the JS
    length). *)
Fixpoint repeat_text (n : nat) (t : string) : string :=
  match n with O => "" | S k => t ++ repeat_text k t end.

(** A Korean-mode text of 4500 characters: too long for one speech request. *)
Definition long_speech : string := repeat_text 300 "Wear a helmet. ".
Definition speech_item : QueueItem :=
  mkQueueItem "m4n5b6v7c" None "직접 입력한 텍스트" long_speech None KOREAN
    idle None None.

(** A 10500-character document. *)
Definition long_document : string := repeat_text 700 "Wear a helmet. ".

(** A 50 MB PDF. *)
Definition big_manual : File := mkFile "site_manual.pdf" 52428800.

(** An item playing for one second. *)
Definition playing_player : Player :=
  advance 1 (play_button silent_player sample_buffer "p7q2r8s1t").

(** ** Text extraction ([extractTextFromFile], [services/geminiService.ts])
    and the data-URL split of [fileToBase64] ([services/fileUtils.ts]) *)

(** A settled promise of the browser or of a parser library: resolved, or
    rejected with a value whose [message] is given; [None] is a value without
    a [message], as the [ProgressEvent] a [FileReader] rejects with. *)
Inductive Outcome (A : Type) :=
| Resolved (a : A)
| Rejected (message : option string).
Arguments Resolved {A} a.
Arguments Rejected {A} message.

(** [s.split(sep)] for a one-character separator. *)
Fixpoint split_on (sep : ascii) (s : string) : list string :=
  match s with
  | EmptyString => [""]
  | String c r =>
      if Ascii.eqb c sep then "" :: split_on sep r
      else match split_on sep r with
           | [] => [String c ""]
           | w :: ws => String c w :: ws
           end
  end.

(** [fileToBase64] once the reader has loaded: [result.split(',')[1]],
    [undefined] ([None]) when the data URL has no comma. *)
Definition fileToBase64_result (result : string) : option string :=
  nth_error (split_on "," result) 1.

Definition newline : string := String (ascii_of_nat 10) "".

Definition msg_unsupported_format : string := "지원되지 않는 파일 형식입니다.".
Definition msg_bad_format : string :=
  "파일 형식이 올바르지 않거나 AI가 처리할 수 없습니다. PDF로 변환 후 시도해주세요.".
Definition msg_read_failed : string := "파일 내용을 읽는 중 오류가 발생했습니다: ".
(** The [TypeError] of [error.message.includes(...)] when [error.message] is
    [undefined] (the message of V8). *)
Definition msg_no_message : string :=
  "Cannot read properties of undefined (reading 'includes')".

(** The [catch (error)] block of [extractTextFromFile]. *)
Definition extraction_catch (message : option string) : Result string :=
  match message with
  | None => Err msg_no_message
  | Some m =>
      if includes m "API 키" then Err m
      else if includes m "HWP" || includes m "PPTX" then Err m
      else if includes m "400" then Err msg_bad_format
      else Err (msg_read_failed ++ (if truthy m then m else "Unknown error"))
  end.

Section Extraction.
(** [validateApiKey] succeeds. *)
Variable apiKeyValid : bool.
(** [fileToArrayBuffer] and [mammoth.extractRawText]: [result.value]. *)
Variable docx_rawText : File -> Outcome string.
(** [readXlsxFile]: the rows, each cell as the string [row.join] makes of it. *)
Variable readXlsxFile : File -> Outcome (list (list string)).
Variable fileToText : File -> Outcome string.
(** [reader.readAsDataURL]: the data URL. *)
Variable readAsDataURL : File -> Outcome string.
(** The PDF model call on the base64 data: its [response.text], if any. *)
Variable pdf_request : option string -> Outcome (option string).

(** The [try] block of [extractTextFromFile]. *)
Definition extraction_try (file : File) : Outcome string :=
  let lowerName := toLowerCase (name file) in
  if endsWith lowerName ".docx" then
    match docx_rawText file with
    | Resolved v => Resolved (trim v)
    | Rejected m => Rejected m
    end
  else if endsWith lowerName ".xlsx" then
    match readXlsxFile file with
    | Resolved rows =>
        Resolved (trim (String.concat newline (map (String.concat " ") rows)))
    | Rejected m => Rejected m
    end
  else if endsWith lowerName ".txt" then fileToText file
  else if endsWith lowerName ".pdf" then
    if negb apiKeyValid then Rejected (Some msg_api_key) else
    match readAsDataURL file with
    | Rejected m => Rejected m
    | Resolved result =>
        match pdf_request (fileToBase64_result result) with
        | Resolved (Some t) =>
            let t' := trim t in Resolved (if truthy t' then t' else "")
        | Resolved None => Resolved ""
        | Rejected m => Rejected m
        end
    end
  else if endsWith lowerName ".hwp" || endsWith lowerName ".pptx" then
    Rejected (Some msg_hwp)
  else Rejected (Some msg_unsupported_format).

Definition extractTextFromFile (file : File) : Result string :=
  match extraction_try file with
  | Resolved t => Ok t
  | Rejected m => extraction_catch m
  end.

End Extraction.

(** ** Queue additions ([addManualInput], [addTranslationJob]) *)

Definition manual_fileName : string := "직접 입력한 텍스트".

(** [addManualInput] on the text field's value [manualInput], with [newId]
    the id [generateId] draws: the new state and the new field value. *)
Definition addManualInput (newId manualInput : string) (s : AppState)
  : AppState * string :=
  if negb (truthy (trim manualInput)) then (s, manualInput)
  else (addToQueue [mkQueueItem newId None manual_fileName manualInput None
                      (selectedLanguage s) idle None None] s, "").

Definition addTranslationJob (newId : string) (sourceItem : QueueItem)
    (lang : TargetLanguage) (s : AppState) : AppState :=
  addToQueue [mkQueueItem newId (file sourceItem) (fileName sourceItem)
                (originalText sourceItem) None lang idle None None] s.

(** [Object.values(TargetLanguage)]. *)
Definition all_languages : list TargetLanguage :=
  [KOREAN; ENGLISH; CHINESE; VIETNAMESE; RUSSIAN; UZBEK].

(** The "other language" buttons of a queue item: shown when
    [item.originalText && item.status !== 'extracting' && item.status !== 'error'],
    one per language except the item's own. *)
Definition translation_options (item : QueueItem) : list TargetLanguage :=
  if truthy (originalText item) && negb (ProcessStatus_eqb (status item) extracting)
     && negb (ProcessStatus_eqb (status item) error)
  then filter (fun lang => negb (TargetLanguage_eqb lang (targetLanguage item)))
         all_languages
  else [].

(** The order in which the pipeline moves an item through the statuses. *)
Definition status_rank (st : ProcessStatus) : nat :=
  match st with
  | idle => 0 | extracting => 1 | translating => 2 | speaking => 3
  | completed | error => 4
  end.

(** The statuses a run sets, in order. *)
Definition statuses_set (l : Log) : list ProcessStatus :=
  flat_map (fun u => match u_status u with Some st => [st] | None => [] end)
    (log_updates l).

(** Scenarios of the extras. *)

(** A DOCX reader whose raw text is padded with white space. *)
Definition padded_docx (f : File) : Outcome string :=
  Resolved "  Wear a helmet.  ".
Definition no_read (f : File) : Outcome string := Rejected None.
Definition no_rows (f : File) : Outcome (list (list string)) := Rejected None.
Definition no_pdf (d : option string) : Outcome (option string) := Rejected None.

(** A translation model that answers with a line break only. *)
Definition blank_translate (text : string) (lang : TargetLanguage) : Result string :=
  Ok newline.

Definition english_item : QueueItem :=
  mkQueueItem "e5r6t7y8u" None manual_fileName "Wear a helmet." None ENGLISH
    idle None None.

(** Item [A] paused after one second, then item [B] is played. *)
Definition paused_player : Player := pauseAudio playing_player.

Definition photo : File := mkFile "site_photo.png" 40960.
Definition safety_docx : File := mkFile "Safety_Rules.DOCX" 20480.
Definition blank_item : QueueItem :=
  mkQueueItem "w1x2y3z4a" None manual_fileName "   " None ENGLISH idle None None.
Definition done_item : QueueItem :=
  mkQueueItem "d9f8g7h6j" None manual_fileName "Wear a helmet." (Some "Wear a helmet.")
    KOREAN completed None (Some sample_buffer).

(** The fields of a queue item that no update changes. *)
Definition item_key (y : QueueItem) :=
  (id y, file y, fileName y, targetLanguage y).

(** * Lemmas on strings and lists *)

Lemma truthy_true (s : string) : truthy s = true -> s <> "".
Proof. unfold truthy; intros H ->; discriminate H. Qed.

Lemma length_slice0 (n : nat) (s : string) :
  (n <= String.length s)%nat -> String.length (slice0 s n) = n.
Proof.
  unfold slice0; revert n; induction s as [|c s IH]; intros n Hn.
  - simpl in Hn. destruct n; [reflexivity | lia].
  - destruct n; [reflexivity|]. simpl in *. rewrite IH; lia.
Qed.

Lemma prefix_slice0 (n : nat) (s : string) : prefix (slice0 s n) s = true.
Proof.
  unfold slice0; revert n; induction s as [|c s IH]; intros n.
  - destruct n; reflexivity.
  - destruct n; [reflexivity|]. simpl.
    destruct (ascii_dec c c) as [_|C]; [apply IH | contradiction].
Qed.

(** * Properties of the per-item pipeline *)

Ltac unfold_pipeline :=
  unfold final_item, events, process_item, pipeline, extraction_stage,
    translation_stage, call_extract, call_translate, call_generateSpeech,
    try_catch, bind, ret, throw, updateItem, emit, lift, empty_log;
  cbn beta iota zeta.

Ltac split_pipeline :=
  repeat (match goal with
          | |- context [match ?x with _ => _ end] =>
              lazymatch x with
              | context [match _ with _ => _ end] => fail
              | _ => destruct x eqn:?
              end
          end; cbn beta iota zeta).

Section PipelineFacts.
Variable apiKeyValid : bool.
Variable extractTextFromFile : File -> Result string.
Variable translate_request : string -> TargetLanguage -> Result string.
Variable tts_request : string -> Result (option string).
Variable decodeAudioData : string -> option AudioBuffer.

Local Abbreviation final := (final_item apiKeyValid extractTextFromFile
  translate_request tts_request decodeAudioData).
Local Abbreviation evs := (events apiKeyValid extractTextFromFile
  translate_request tts_request decodeAudioData).
Local Abbreviation log := (process_item apiKeyValid extractTextFromFile
  translate_request tts_request decodeAudioData).
Local Abbreviation speech := (generateSpeech apiKeyValid tts_request decodeAudioData).

(** Claim C1: when the pipeline reaches speech synthesis (so extraction, if
    any, and translation succeeded) and synthesis fails, the item ends
    [completed] with no [audioBuffer] and the warning [msg_tts_failed] in
    [error]; no update of the run sets the status to [error]. *)
Theorem synthesis_failure_is_soft (nextItem : QueueItem) (t m : string) :
  In (ESynthesize t) (evs nextItem) -> speech t = Err m ->
  status (final nextItem) = completed /\ audioBuffer (final nextItem) = None /\
  item_error (final nextItem) = Some msg_tts_failed /\
  (forall u, In u (log_updates (log nextItem)) -> u_status u <> Some error).
Proof.
  unfold_pipeline. split_pipeline.
  all: simpl; intros Hin Hs.
  all: repeat (destruct Hin as [Hin|Hin]; [try discriminate Hin|]).
  all: try contradiction.
  all: try (injection Hin as <-; congruence).
  all: repeat split; try reflexivity.
  all: intros u Hu; repeat destruct Hu as [<-|Hu]; try contradiction;
       simpl; discriminate.
Qed.

(** Claim C3: when the pipeline reaches speech synthesis and it succeeds,
    the item ends [completed] with that [audioBuffer] and no [error]. *)
Theorem full_success_completes (nextItem : QueueItem) (t : string) (b : AudioBuffer) :
  In (ESynthesize t) (evs nextItem) -> speech t = Ok b ->
  status (final nextItem) = completed /\ audioBuffer (final nextItem) = Some b /\
  item_error (final nextItem) = None /\ translatedText (final nextItem) = Some t.
Proof.
  unfold_pipeline. split_pipeline.
  all: simpl; intros Hin Hs.
  all: repeat (destruct Hin as [Hin|Hin]; [try discriminate Hin|]).
  all: try contradiction.
  all: injection Hin as <-; rewrite Hs in *; try discriminate.
  all: repeat split; congruence.
Qed.

(** An item that ends in [error] never reached synthesis, kept its
    [audioBuffer] and has a non-empty message. *)
Lemma hard_failure (nextItem : QueueItem) :
  status (final nextItem) = error ->
  (forall t, ~ In (ESynthesize t) (evs nextItem)) /\
  audioBuffer (final nextItem) = audioBuffer nextItem /\
  (exists m, item_error (final nextItem) = Some m /\ m <> "").
Proof.
  unfold_pipeline. split_pipeline.
  all: simpl; intros Hst; try discriminate Hst.
  all: split; [intros t Hin; repeat (destruct Hin as [Hin|Hin]; [discriminate Hin|]);
               contradiction |].
  all: split; [reflexivity|].
  all: eexists; split; [reflexivity|].
  all: try match goal with |- (if ?b then _ else _) <> "" => destruct b eqn:? end.
  all: try (apply truthy_true; assumption).
  all: unfold msg_default; discriminate.
Qed.

(** Claim C8: for a Korean item the translation model is never called; once
    the Translating stage is entered the text is copied after a 300 ms delay,
    so [translatedText = originalText]; for any other language the stage
    calls [translateSafetyText] on the stored text. *)
Theorem korean_translation_skipped (nextItem : QueueItem) :
  (targetLanguage nextItem = KOREAN ->
     (forall t l, ~ In (ETranslate t l) (evs nextItem)) /\
     (In (set_status translating) (log_updates (log nextItem)) ->
        In (EDelay 300) (evs nextItem) /\
        translatedText (final nextItem) = Some (originalText (final nextItem)))) /\
  (targetLanguage nextItem <> KOREAN ->
     In (set_status translating) (log_updates (log nextItem)) ->
     In (ETranslate (originalText (final nextItem)) (targetLanguage nextItem))
        (evs nextItem)).
Proof.
  unfold_pipeline. split_pipeline.
  all: simpl; split; intros Hl.
  all: try (rewrite Hl in *; discriminate).
  all: try (exfalso; apply Hl; destruct (targetLanguage nextItem);
            first [reflexivity | discriminate]).
  all: try (intros Hin; repeat (destruct Hin as [Hin|Hin]; [discriminate Hin|]);
            contradiction).
  all: try (split; [intros t l Hin; repeat (destruct Hin as [Hin|Hin]; [discriminate Hin|]);
                    contradiction|]).
  all: intros Hin; repeat (destruct Hin as [Hin|Hin]; [try discriminate Hin|]);
       try contradiction.
  all: try (split; [|reflexivity]).
  all: simpl; tauto.
Qed.

(** Claim C9 (amended): the extracted text is stored clipped to
    [MAX_INPUT_LENGTH] characters (a prefix of exactly that length when the
    document is longer, the document itself otherwise), and the item is not
    rejected for its length: its whole run is the run for a document equal to
    the clipped text. *)
Theorem extraction_truncates (nextItem : QueueItem) (f : File) (t : string) :
  file nextItem = Some f -> originalText nextItem = "" ->
  extractTextFromFile f = Ok t ->
  originalText (final nextItem) = clipped t /\
  ((MAX_INPUT_LENGTH < String.length t)%nat ->
     String.length (clipped t) = MAX_INPUT_LENGTH /\ prefix (clipped t) t = true) /\
  ((String.length t <= MAX_INPUT_LENGTH)%nat -> clipped t = t) /\
  log nextItem = process_item apiKeyValid (fun _ => Ok (clipped t))
                   translate_request tts_request decodeAudioData nextItem.
Proof.
  intros Hf Ho He.
  split; [|split; [|split]].
  - revert He. unfold_pipeline. rewrite Hf, Ho. cbn beta iota zeta.
    intros He; rewrite He.
    replace (truthy "") with false by reflexivity.
    replace (has_file nextItem) with true by (unfold has_file; rewrite Hf; reflexivity).
    cbn beta iota zeta delta [negb andb].
    unfold clipped. split_pipeline. all: reflexivity.
  - intros Hlt. unfold clipped.
    apply Nat.ltb_lt in Hlt as Hb. rewrite Hb.
    split; [apply length_slice0; lia | apply prefix_slice0].
  - intros Hle. unfold clipped.
    destruct (MAX_INPUT_LENGTH <? String.length t)%nat eqn:Hb; [|reflexivity].
    apply Nat.ltb_lt in Hb; lia.
  - unfold process_item, pipeline, extraction_stage, call_extract, bind, emit,
      lift, try_catch.
    rewrite Hf, Ho. cbn beta iota zeta. rewrite He. cbn beta iota zeta.
    unfold clipped.
    destruct (MAX_INPUT_LENGTH <? String.length t)%nat eqn:Hb.
    + apply Nat.ltb_lt in Hb.
      rewrite (length_slice0 MAX_INPUT_LENGTH t) by lia.
      rewrite Nat.ltb_irrefl. reflexivity.
    + rewrite Hb. reflexivity.
Qed.

(** Every run issues at least one [updateItemStatus]. *)
Lemma process_item_updates (nextItem : QueueItem) :
  log_updates (log nextItem) <> [].
Proof. unfold_pipeline. split_pipeline. all: simpl; discriminate. Qed.

End PipelineFacts.

(** * The document longer than the limit *)

(** Claim C9: a document longer than [MAX_INPUT_LENGTH] can still be
    rejected: the emptiness guard runs on the clipped text, so a document
    whose first 10000 characters are white space ends in [error]. *)
Lemma long_document_rejected :
  (MAX_INPUT_LENGTH < String.length long_notice)%nat /\
  status (final_item true (fun _ => Ok long_notice) (fun t _ => Ok t)
            (fun _ => Ok (Some "AAAA")) (fun _ => Some sample_buffer)
            notice_item) = error.
Proof.
  split.
  - apply Nat.ltb_lt. vm_compute. reflexivity.
  - vm_compute. reflexivity.
Qed.

(** * The driving loop *)

Lemma ProcessStatus_eqb_true (a b : ProcessStatus) :
  ProcessStatus_eqb a b = true <-> a = b.
Proof. destruct a, b; simpl; split; congruence. Qed.

Lemma find_first {A} (P : A -> bool) (l : list A) (x : A) :
  find P l = Some x ->
  exists pre post, l = (pre ++ x :: post)%list /\ P x = true /\
                   Forall (fun y => P y = false) pre.
Proof.
  induction l as [|y l IH]; simpl; [discriminate|].
  destruct (P y) eqn:Py.
  - intros [= ->]. exists [], l. repeat split; auto.
  - intros H. destruct (IH H) as (pre & post & -> & Px & Hpre).
    exists (y :: pre), post. repeat split; auto.
Qed.

Lemma find_none {A} (P : A -> bool) (l : list A) :
  find P l = None -> forall y, In y l -> P y = false.
Proof.
  induction l as [|y l IH]; simpl; [contradiction|].
  destruct (P y) eqn:Py; [discriminate|].
  intros H z [<-|Hz]; auto.
Qed.

Lemma not_idle (y : QueueItem) : is_idle y = false -> status y <> idle.
Proof.
  unfold is_idle; intros H E; rewrite E in H; discriminate H.
Qed.

Section Driving.
Variable apiKeyValid : bool.
Variable extractTextFromFile : File -> Result string.
Variable translate_request : string -> TargetLanguage -> Result string.
Variable tts_request : string -> Result (option string).
Variable decodeAudioData : string -> option AudioBuffer.

Local Abbreviation next := (processNext apiKeyValid extractTextFromFile
  translate_request tts_request decodeAudioData).
Local Abbreviation log := (process_item apiKeyValid extractTextFromFile
  translate_request tts_request decodeAudioData).

(** Claim C4: a scan of a running processor picks the first [idle] item in
    queue order (every earlier item is not [idle]) and runs exactly that
    item's pipeline; with no [idle] item it stops itself
    ([isProcessingQueue = false], [currentItemId] cleared) and returns. *)
Theorem processNext_selects_first_idle (s : AppState) :
  isProcessingQueue s = true ->
  (forall it, find is_idle (queue s) = Some it ->
     (exists pre post, queue s = (pre ++ it :: post)%list /\ status it = idle /\
        Forall (fun y => status y <> idle) pre) /\
     currentItemId (fst (next s)) = Some (id it) /\
     isProcessingQueue (fst (next s)) = true /\
     queue (fst (next s)) =
       fold_left (fun q u => updateItemStatus (id it) u q)
         (log_updates (log it)) (queue s)) /\
  (find is_idle (queue s) = None ->
     (forall y, In y (queue s) -> status y <> idle) /\
     isProcessingQueue (fst (next s)) = false /\
     currentItemId (fst (next s)) = None /\
     queue (fst (next s)) = queue s /\
     snd (next s) = false).
Proof.
  intros Hrun. unfold processNext. rewrite Hrun. simpl negb. cbv iota.
  split.
  - intros it Hf. rewrite Hf. simpl.
    destruct (find_first _ _ _ Hf) as (pre & post & Hq & Hi & Hpre).
    split; [|repeat split].
    exists pre, post. split; [exact Hq|]. split.
    + apply ProcessStatus_eqb_true; exact Hi.
    + eapply Forall_impl; [|exact Hpre]. intros y; apply not_idle.
  - intros Hf. rewrite Hf. simpl. repeat split.
    intros y Hy. apply not_idle. exact (find_none _ _ Hf y Hy).
Qed.

(** A scan that picks an item with a non-empty id never leads to another
    scan: every run changes a dependency of the effect, which cancels its
    own timer, and the effect of the following renders sees
    [currentItemId] still set. *)
Lemma processNext_cancels (s : AppState) (it : QueueItem) :
  isProcessingQueue s = true -> find is_idle (queue s) = Some it ->
  id it <> "" ->
  snd (next s) = false /\ effect_guard (fst (next s)) = false.
Proof.
  intros Hrun Hf Hid. unfold processNext. rewrite Hrun, Hf. simpl.
  pose proof (process_item_updates apiKeyValid extractTextFromFile
                translate_request tts_request decodeAudioData it) as Hne.
  unfold process_item' .
  destruct (log_updates (log it)); [contradiction|].
  rewrite orb_true_r. split; [reflexivity|].
  unfold effect_guard, truthy. simpl.
  destruct (String.eqb (id it) "") eqn:E; [|reflexivity].
  apply String.eqb_eq in E. contradiction.
Qed.

End Driving.

(** Claim C2: after the first item of a started queue fails (an HWP file), the
    loop never reaches the second, [idle] item, whatever the number of
    further steps: the processor stays "running" on the failed item. *)
Theorem failed_item_stalls_queue (fuel : nat) :
  let s := drive true demo_extract demo_translate demo_tts demo_decode
             (S fuel) (toggleProcessing demo_state) in
  map status (queue s) = [error; idle] /\
  map item_error (queue s) = [Some ("파일 읽기 실패: " ++ msg_hwp); None] /\
  isProcessingQueue s = true /\ currentItemId s = Some "k3x9a1b2c".
Proof.
  cbn zeta. cbn [drive].
  vm_compute. repeat split.
Qed.

(** * Files and the size limit *)

Lemma build_items_contains (genId : nat -> string) (lang : TargetLanguage)
    (files : list File) (f : File) :
  In f files -> isValidFileType f = true ->
  forall n, exists item, In item (build_items genId n lang files) /\
    file item = Some f /\ status item = idle.
Proof.
  induction files as [|g fs IH]; simpl; [contradiction|].
  intros [<-|Hin] Hv n.
  - rewrite Hv. eexists; split; [left; reflexivity | split; reflexivity].
  - destruct (isValidFileType g).
    + destruct (IH Hin Hv (S n)) as (item & Hi & Hf & Hs).
      exists item; split; [right; exact Hi | auto].
    + exact (IH Hin Hv n).
Qed.

(** Claim C10: every file with a supported extension is put in the queue as
    an [idle] item whatever its byte size; [isValidFileSize] is not called. *)
Theorem handleFiles_ignores_size (genId : nat -> string) (files : list File)
    (s : AppState) (f : File) :
  In f files -> isValidFileType f = true ->
  exists item, In item (queue (handleFiles genId (Some files) s)) /\
    file item = Some f /\ status item = idle.
Proof.
  intros Hin Hv.
  destruct (build_items_contains genId (selectedLanguage s) files f Hin Hv 0)
    as (item & Hi & Hf & Hs).
  unfold handleFiles.
  destruct (build_items genId 0 (selectedLanguage s) files) as [|x xs] eqn:E;
    [contradiction|].
  simpl. exists item. split; [|auto].
  apply in_or_app. right. exact Hi.
Qed.

(** * The playback controller *)

Lemma progress_of_compat (a b d : Q) :
  a == b -> progress_of a d == progress_of b d.
Proof.
  intros H. unfold progress_of, qmin.
  assert (Hx : a / d * 100 == b / d * 100) by (rewrite H; reflexivity).
  destruct (Qle_bool (a / d * 100) 100) eqn:E1,
           (Qle_bool (b / d * 100) 100) eqn:E2; try reflexivity; try exact Hx.
  - apply Qle_bool_iff in E1. rewrite Hx in E1.
    apply Qle_bool_iff in E1. congruence.
  - apply Qle_bool_iff in E2. rewrite <- Hx in E2.
    apply Qle_bool_iff in E2. congruence.
Qed.

(** Claim C5: [pauseAudio] adds the elapsed time of the current interval to
    [offsetRef] and keeps the session ([playingItemId], [offsetRef]); a resume
    at the same clock value starts the new source at that offset, and the
    progress computed right after the resume equals the one right before the
    pause. *)
Theorem pause_then_resume_continuous (p : Player) (src : Source)
    (buffer : AudioBuffer) (itemId : string) :
  audioSourceRef p = Some src -> src_buffer src = buffer ->
  let p1 := pauseAudio p in
  let p2 := playAudio p1 buffer itemId true in
  offsetRef p1 = offsetRef p + (currentTime p - startTimeRef p) /\
  playingItemId p1 = playingItemId p /\ isPaused p1 = true /\
  audioSourceRef p1 = None /\
  (exists s2, audioSourceRef p2 = Some s2 /\ src_buffer s2 = buffer /\
              src_startOffset s2 = offsetRef p1) /\
  offsetRef p2 = offsetRef p1 /\
  progress_sample p2 == progress_sample p.
Proof.
  intros Hsrc Hbuf. cbn zeta.
  unfold pauseAudio. rewrite Hsrc.
  split; [reflexivity|]. split; [reflexivity|]. split; [reflexivity|].
  split; [reflexivity|].
  split; [eexists; split; [reflexivity | split; reflexivity]|].
  split; [reflexivity|].
  unfold progress_sample. rewrite Hsrc, <- Hbuf. simpl.
  apply progress_of_compat. unfold totalElapsed. simpl. ring.
Qed.

(** ** Natural end of the audio *)

(** Claim C6: the resumed source's [onended] keeps the [isPaused = true] of
    the render in which resume was clicked, so its natural end does not run
    [stopAudio]: the session is not reset. *)
Theorem resumed_end_not_reset :
  reached_end resumed_to_end = true /\
  playingItemId (natural_end resumed_to_end) = Some "p7q2r8s1t" /\
  offsetRef (natural_end resumed_to_end) == 1 /\
  natural_end resumed_to_end = resumed_to_end.
Proof. vm_compute. repeat split; reflexivity. Qed.

(** ** At most one session *)

(** Claim C7: playing another item first stops the active one completely;
    any fresh play starts at offset 0 with no other source held; a play click
    that starts a source holds no other one; removing the item bound to the
    session runs [stopAudio] in the same handler. *)
Theorem single_playback_session :
  (forall p buffer A B, playingItemId p = Some A -> A <> "" -> A <> B ->
     playAudio_release p B false = stopAudio p /\
     playAudio p buffer B false =
       playAudio_start (isPaused p) (stopAudio p) buffer B false) /\
  (forall p buffer B,
     audioSourceRef (playAudio_release p B false) = None /\
     offsetRef (playAudio p buffer B false) = 0 /\
     playingItemId (playAudio p buffer B false) = Some B /\
     (exists s, audioSourceRef (playAudio p buffer B false) = Some s /\
                src_startOffset s = 0)) /\
  (forall p buffer itemId, paused_has_no_source p ->
     paused_has_no_source (play_button p buffer itemId) /\
     (play_button p buffer itemId = pauseAudio p \/
      exists resume, play_button p buffer itemId = playAudio p buffer itemId resume /\
                     audioSourceRef (playAudio_release p itemId resume) = None)) /\
  (forall m itemId, playingItemId (player m) = Some itemId ->
     player (removeFromQueue m itemId) = stopAudio (player m) /\
     playingItemId (player (removeFromQueue m itemId)) = None /\
     (forall it, In it (queue (app (removeFromQueue m itemId))) -> id it <> itemId)).
Proof.
  split; [|split; [|split]].
  - intros p buffer A B HA Hne Hdiff.
    assert (Hr : playAudio_release p B false = stopAudio p).
    { unfold playAudio_release. rewrite HA. simpl.
      destruct (truthy A) eqn:Ht.
      - destruct (String.eqb A B) eqn:Ed.
        + apply String.eqb_eq in Ed. contradiction.
        + reflexivity.
      - unfold truthy in Ht. destruct (String.eqb A "") eqn:E; [|discriminate Ht].
        apply String.eqb_eq in E. contradiction. }
    split; [exact Hr|]. unfold playAudio. rewrite Hr. reflexivity.
  - intros p buffer B.
    assert (Hr : audioSourceRef (playAudio_release p B false) = None).
    { unfold playAudio_release. simpl.
      destruct (match playingItemId p with
                | Some cur => truthy cur && negb (String.eqb cur B)
                | None => false end).
      - reflexivity.
      - destruct (audioSourceRef p) eqn:E; simpl; auto. }
    split; [exact Hr|]. repeat split. eexists; split; reflexivity.
  - intros p buffer itemId Hinv. unfold play_button.
    destruct (option_string_eqb (playingItemId p) (Some itemId)).
    + destruct (isPaused p) eqn:Hp.
      * split; [intros H; discriminate H|].
        right. exists true. split; [reflexivity|].
        unfold playAudio_release. simpl. rewrite (Hinv Hp). exact (Hinv Hp).
      * split; [|left; reflexivity].
        unfold pauseAudio, paused_has_no_source.
        destruct (audioSourceRef p); [intros _; reflexivity|].
        intros H; rewrite H in Hp; discriminate Hp.
    + split; [intros H; discriminate H|].
      right. exists false. split; [reflexivity|].
      unfold playAudio_release. simpl.
      destruct (match playingItemId p with
                | Some cur => truthy cur && negb (String.eqb cur itemId)
                | None => false end).
      * reflexivity.
      * destruct (audioSourceRef p) eqn:E; simpl; auto.
  - intros m itemId Hp. unfold removeFromQueue. simpl.
    rewrite Hp. simpl. rewrite String.eqb_refl.
    split; [reflexivity|]. split; [reflexivity|].
    intros it Hin. apply filter_In in Hin as [_ Hk].
    intros E. rewrite E, String.eqb_refl in Hk. discriminate Hk.
Qed.

(** * Witnesses *)

Ltac in_list := vm_compute; repeat (first [left; reflexivity | right]).

Lemma synthesis_failure_is_soft_witness :
  In (ESynthesize long_speech)
     (events true demo_extract demo_translate demo_tts demo_decode speech_item) /\
  generateSpeech true demo_tts demo_decode long_speech = Err msg_too_long /\
  status (final_item true demo_extract demo_translate demo_tts demo_decode
            speech_item) = completed /\
  audioBuffer (final_item true demo_extract demo_translate demo_tts demo_decode
                 speech_item) = None.
Proof.
  assert (H1 : In (ESynthesize long_speech)
     (events true demo_extract demo_translate demo_tts demo_decode speech_item))
    by in_list.
  assert (H2 : generateSpeech true demo_tts demo_decode long_speech = Err msg_too_long)
    by (vm_compute; reflexivity).
  destruct (synthesis_failure_is_soft true demo_extract demo_translate demo_tts
              demo_decode speech_item long_speech msg_too_long H1 H2)
    as (Hs & Ha & _).
  exact (conj H1 (conj H2 (conj Hs Ha))).
Defined.

Lemma full_success_completes_witness :
  In (ESynthesize "안전모를 착용하십시오.")
     (events true demo_extract demo_translate demo_tts demo_decode text_item) /\
  generateSpeech true demo_tts demo_decode "안전모를 착용하십시오." = Ok sample_buffer /\
  status (final_item true demo_extract demo_translate demo_tts demo_decode
            text_item) = completed /\
  audioBuffer (final_item true demo_extract demo_translate demo_tts demo_decode
                 text_item) = Some sample_buffer.
Proof.
  assert (H1 : In (ESynthesize "안전모를 착용하십시오.")
     (events true demo_extract demo_translate demo_tts demo_decode text_item))
    by in_list.
  assert (H2 : generateSpeech true demo_tts demo_decode "안전모를 착용하십시오."
               = Ok sample_buffer) by (vm_compute; reflexivity).
  destruct (full_success_completes true demo_extract demo_translate demo_tts
              demo_decode text_item _ _ H1 H2) as (Hs & Ha & _).
  exact (conj H1 (conj H2 (conj Hs Ha))).
Defined.

Lemma korean_translation_skipped_witness :
  targetLanguage text_item = KOREAN /\
  In (set_status translating)
     (log_updates (process_item true demo_extract demo_translate demo_tts
                     demo_decode text_item)) /\
  In (EDelay 300)
     (events true demo_extract demo_translate demo_tts demo_decode text_item) /\
  translatedText (final_item true demo_extract demo_translate demo_tts
                    demo_decode text_item) =
  Some (originalText (final_item true demo_extract demo_translate demo_tts
                        demo_decode text_item)).
Proof.
  assert (H1 : targetLanguage text_item = KOREAN) by reflexivity.
  assert (H2 : In (set_status translating)
     (log_updates (process_item true demo_extract demo_translate demo_tts
                     demo_decode text_item))) by in_list.
  destruct (proj1 (korean_translation_skipped true demo_extract demo_translate
                     demo_tts demo_decode text_item) H1) as [_ H3].
  exact (conj H1 (conj H2 (H3 H2))).
Defined.

Lemma extraction_truncates_witness :
  file notice_item = Some notice_file /\ originalText notice_item = "" /\
  originalText (final_item true (fun _ => Ok long_document) demo_translate
                  demo_tts demo_decode notice_item) = clipped long_document /\
  String.length (clipped long_document) = MAX_INPUT_LENGTH.
Proof.
  assert (H1 : file notice_item = Some notice_file) by reflexivity.
  assert (H2 : originalText notice_item = "") by reflexivity.
  assert (H3 : (fun _ : File => Ok long_document) notice_file = Ok long_document)
    by reflexivity.
  assert (H4 : (MAX_INPUT_LENGTH < String.length long_document)%nat)
    by (apply Nat.ltb_lt; vm_compute; reflexivity).
  destruct (extraction_truncates true (fun _ => Ok long_document) demo_translate
              demo_tts demo_decode notice_item notice_file long_document H1 H2 H3)
    as (Ho & Hlong & _).
  exact (conj H1 (conj H2 (conj Ho (proj1 (Hlong H4))))).
Defined.

Lemma processNext_selects_first_idle_witness :
  isProcessingQueue (toggleProcessing demo_state) = true /\
  find is_idle (queue (toggleProcessing demo_state)) = Some hwp_item /\
  currentItemId (fst (processNext true demo_extract demo_translate demo_tts
                        demo_decode (toggleProcessing demo_state))) =
  Some (id hwp_item).
Proof.
  assert (H1 : isProcessingQueue (toggleProcessing demo_state) = true)
    by reflexivity.
  assert (H2 : find is_idle (queue (toggleProcessing demo_state)) = Some hwp_item)
    by reflexivity.
  destruct (proj1 (processNext_selects_first_idle true demo_extract demo_translate
                     demo_tts demo_decode (toggleProcessing demo_state) H1)
              hwp_item H2) as (_ & Hc & _).
  exact (conj H1 (conj H2 Hc)).
Defined.

Lemma pause_then_resume_continuous_witness :
  audioSourceRef playing_player = Some (mkSource sample_buffer (Some false) 0) /\
  progress_sample (playAudio (pauseAudio playing_player) sample_buffer
                     "p7q2r8s1t" true) == progress_sample playing_player.
Proof.
  assert (H1 : audioSourceRef playing_player =
               Some (mkSource sample_buffer (Some false) 0)) by reflexivity.
  assert (H2 : src_buffer (mkSource sample_buffer (Some false) 0) = sample_buffer)
    by reflexivity.
  destruct (pause_then_resume_continuous playing_player _ sample_buffer
              "p7q2r8s1t" H1 H2) as (_ & _ & _ & _ & _ & _ & Hp).
  exact (conj H1 Hp).
Defined.

Lemma single_playback_session_witness :
  playingItemId playing_player = Some "p7q2r8s1t" /\
  playAudio_release playing_player "k3x9a1b2c" false = stopAudio playing_player /\
  paused_has_no_source (play_button silent_player sample_buffer "p7q2r8s1t") /\
  player (removeFromQueue (mkModel demo_state playing_player) "p7q2r8s1t") =
  stopAudio playing_player.
Proof.
  assert (H1 : playingItemId playing_player = Some "p7q2r8s1t") by reflexivity.
  assert (H2 : "p7q2r8s1t" <> "") by discriminate.
  assert (H3 : "p7q2r8s1t" <> "k3x9a1b2c") by discriminate.
  assert (H4 : paused_has_no_source silent_player)
    by (intros H; discriminate H).
  destruct single_playback_session as (Hplay & _ & Hbutton & Hremove).
  destruct (Hplay playing_player sample_buffer _ _ H1 H2 H3) as [Hr _].
  destruct (Hbutton silent_player sample_buffer "p7q2r8s1t" H4) as [Hi _].
  destruct (Hremove (mkModel demo_state playing_player) "p7q2r8s1t" H1) as [Hm _].
  exact (conj H1 (conj Hr (conj Hi Hm))).
Defined.

Lemma handleFiles_ignores_size_witness :
  isValidFileSize big_manual = false /\ isValidFileType big_manual = true /\
  exists item, In item (queue (handleFiles (fun _ => "q1w2e3r4t")
                                 (Some [big_manual]) demo_state)) /\
               file item = Some big_manual /\ status item = idle.
Proof.
  assert (H0 : isValidFileSize big_manual = false) by reflexivity.
  assert (H1 : In big_manual [big_manual]) by (left; reflexivity).
  assert (H2 : isValidFileType big_manual = true) by reflexivity.
  exact (conj H0 (conj H2 (handleFiles_ignores_size (fun _ => "q1w2e3r4t")
                             [big_manual] demo_state big_manual H1 H2))).
Defined.

(** * Further properties of the code *)

(** ** Lemmas on the string functions *)

Lemma append_nil_r_s (s : string) : s ++ "" = s.
Proof. induction s as [|c s IH]; simpl; [reflexivity | now rewrite IH]. Qed.

Lemma append_assoc_s (a b c : string) : (a ++ b) ++ c = a ++ (b ++ c).
Proof. induction a as [|x a IH]; simpl; [reflexivity | now rewrite IH]. Qed.

Lemma length_append_s (a b : string) :
  String.length (a ++ b) = (String.length a + String.length b)%nat.
Proof. induction a as [|x a IH]; simpl; [reflexivity | now rewrite IH]. Qed.

Lemma rev_string_app (a b : string) :
  rev_string (a ++ b) = rev_string b ++ rev_string a.
Proof.
  induction a as [|x a IH]; simpl.
  - now rewrite append_nil_r_s.
  - rewrite IH. apply append_assoc_s.
Qed.

Lemma rev_string_involutive (s : string) : rev_string (rev_string s) = s.
Proof.
  induction s as [|c s IH]; simpl; [reflexivity|].
  rewrite rev_string_app, IH. reflexivity.
Qed.

(** A string that does not start with white space. *)
Definition head_ok (s : string) : bool :=
  match s with String c _ => negb (is_ws c) | EmptyString => true end.

Lemma trim_start_head (s : string) : head_ok (trim_start s) = true.
Proof.
  induction s as [|c s IH]; simpl; [reflexivity|].
  destruct (is_ws c) eqn:E; [exact IH | simpl; now rewrite E].
Qed.

Lemma trim_start_id (s : string) : head_ok s = true -> trim_start s = s.
Proof.
  destruct s as [|c s]; simpl; [reflexivity|].
  destruct (is_ws c); [discriminate | reflexivity].
Qed.

Lemma trim_start_suffix (s : string) : exists p, s = p ++ trim_start s.
Proof.
  induction s as [|c s IH]; simpl; [exists ""; reflexivity|].
  destruct (is_ws c).
  - destruct IH as [p Hp]. exists (String c p). simpl. now rewrite <- Hp.
  - exists "". reflexivity.
Qed.

Lemma trim_start_last (s : string) :
  head_ok (rev_string s) = true -> head_ok (rev_string (trim_start s)) = true.
Proof.
  destruct (trim_start_suffix s) as [p Hp].
  rewrite Hp at 1. rewrite rev_string_app.
  destruct (rev_string (trim_start s)) as [|c r]; simpl; auto.
Qed.

Lemma trim_idempotent (s : string) : trim (trim s) = trim s.
Proof.
  unfold trim at 2 3.
  set (u := trim_start (rev_string (trim_start s))).
  assert (Hu : head_ok u = true) by apply trim_start_head.
  assert (Hr : head_ok (rev_string u) = true).
  { apply trim_start_last. rewrite rev_string_involutive. apply trim_start_head. }
  unfold trim. rewrite (trim_start_id _ Hr), rev_string_involutive,
    (trim_start_id _ Hu). reflexivity.
Qed.

Lemma trim_empty : trim "" = "".
Proof. reflexivity. Qed.

Lemma substring_0_length (s : string) : substring 0 (String.length s) s = s.
Proof.
  induction s as [|c s IH]; simpl; [reflexivity | now rewrite IH].
Qed.

Lemma substring_shift (p b : string) (k n : nat) :
  substring (String.length p + k) n (p ++ b) = substring k n b.
Proof. induction p as [|c p IH]; simpl; [reflexivity | exact IH]. Qed.

Lemma substring_split (k : nat) (s : string) :
  (k <= String.length s)%nat ->
  s = substring 0 k s ++ substring k (String.length s - k) s.
Proof.
  revert k; induction s as [|c s IH]; intros k Hk; simpl in *.
  - destruct k; [reflexivity | lia].
  - destruct k; simpl.
    + now rewrite substring_0_length.
    + f_equal. apply IH. lia.
Qed.

Lemma endsWith_spec (s suf : string) :
  endsWith s suf = true <-> exists p, s = p ++ suf.
Proof.
  unfold endsWith. split.
  - intros H. apply andb_true_iff in H as [Hl He].
    apply Nat.leb_le in Hl. apply String.eqb_eq in He.
    exists (substring 0 (String.length s - String.length suf) s).
    rewrite (substring_split (String.length s - String.length suf) s) at 1 by lia.
    replace (String.length s - (String.length s - String.length suf))%nat
      with (String.length suf) by lia.
    now rewrite He.
  - intros [p ->]. rewrite length_append_s.
    replace (String.length p + String.length suf - String.length suf)%nat
      with (String.length p + 0)%nat by lia.
    rewrite substring_shift, substring_0_length, String.eqb_refl, andb_true_r.
    apply Nat.leb_le. lia.
Qed.

(** Two suffixes of one string: the shorter is a suffix of the longer. *)
Lemma endsWith_both (s a b : string) :
  endsWith s a = true -> endsWith s b = true ->
  (String.length a <= String.length b)%nat -> endsWith b a = true.
Proof.
  intros Ha Hb Hl. apply endsWith_spec in Hb as [q ->].
  revert Ha. unfold endsWith. rewrite length_append_s.
  replace (String.length q + String.length b - String.length a)%nat
    with (String.length q + (String.length b - String.length a))%nat by lia.
  rewrite substring_shift.
  replace (String.length a <=? String.length b)%nat with true
    by (symmetry; apply Nat.leb_le; lia).
  intros H; apply andb_true_iff in H as [_ H]. now rewrite H.
Qed.

Lemma prefix_app (s r : string) : prefix s (s ++ r) = true.
Proof.
  induction s as [|c s IH]; simpl; [now destruct r|].
  destruct (ascii_dec c c); [exact IH | contradiction].
Qed.


(** Two supported extensions exclude each other. *)
Ltac ext_false H :=
  match goal with
  | |- endsWith ?n ?x = false =>
      let E := fresh "E" in let C := fresh "C" in
      destruct (endsWith n x) eqn:E; [exfalso | reflexivity];
      match type of H with
      | endsWith n ?y = true =>
          first [ pose proof (endsWith_both n x y E H ltac:(vm_compute; lia)) as C
                | pose proof (endsWith_both n y x H E ltac:(vm_compute; lia)) as C ];
          vm_compute in C; discriminate C
      end
  end.

Lemma extraction_hwp k dx xl tx du pr (f : File) :
  endsWith (toLowerCase (name f)) ".hwp" = true \/
  endsWith (toLowerCase (name f)) ".pptx" = true ->
  extractTextFromFile k dx xl tx du pr f = Err msg_hwp.
Proof.
  unfold extractTextFromFile, extraction_try. cbv zeta.
  set (n := toLowerCase (name f)).
  intros [H|H];
  (assert (E1 : endsWith n ".docx" = false) by ext_false H);
  (assert (E2 : endsWith n ".xlsx" = false) by ext_false H);
  (assert (E3 : endsWith n ".txt" = false) by ext_false H);
  (assert (E4 : endsWith n ".pdf" = false) by ext_false H);
  rewrite E1, E2, E3, E4.
  - rewrite H. vm_compute. reflexivity.
  - assert (E5 : endsWith n ".hwp" = false) by ext_false H.
    rewrite E5, H. vm_compute. reflexivity.
Qed.

(** X1: [extractTextFromFile] rejects every file whose lower-cased name ends
    in [.hwp] or [.pptx] with the HWP/PPTX message, whatever the API key and
    the parsers; the [catch] rethrows it unchanged. *)
Theorem extract_hwp_rejected k dx xl tx du pr (f : File) :
  endsWith (toLowerCase (name f)) ".hwp" = true \/
  endsWith (toLowerCase (name f)) ".pptx" = true ->
  extractTextFromFile k dx xl tx du pr f = Err msg_hwp.
Proof. apply extraction_hwp. Qed.

Lemma invalid_type_exts (f : File) : isValidFileType f = false ->
  forall ext, In ext validExtensions -> endsWith (toLowerCase (name f)) ext = false.
Proof.
  unfold isValidFileType. intros H ext Hin.
  destruct (endsWith _ ext) eqn:E; [|reflexivity].
  rewrite <- H. symmetry. apply existsb_exists. eauto.
Qed.

(** X3: a file that [isValidFileType] rejects is rejected by
    [extractTextFromFile] with the generic read-failure message wrapping
    "지원되지 않는 파일 형식입니다.". *)
Theorem extract_unsupported k dx xl tx du pr (f : File) :
  isValidFileType f = false ->
  extractTextFromFile k dx xl tx du pr f =
  Err (msg_read_failed ++ msg_unsupported_format).
Proof.
  intros H. unfold extractTextFromFile, extraction_try. cbv zeta.
  rewrite !(invalid_type_exts f H) by in_list.
  vm_compute. reflexivity.
Qed.

(** X4: only PDF extraction depends on the API key: for any other file the
    result is the same with a valid or an invalid key, and a PDF with an
    invalid key is rejected with the API-key message, unwrapped. *)
Theorem extract_key_pdf_only k dx xl tx du pr (f : File) :
  (endsWith (toLowerCase (name f)) ".pdf" = false ->
     extractTextFromFile k dx xl tx du pr f =
     extractTextFromFile (negb k) dx xl tx du pr f) /\
  (endsWith (toLowerCase (name f)) ".pdf" = true ->
     extractTextFromFile false dx xl tx du pr f = Err msg_api_key).
Proof.
  unfold extractTextFromFile, extraction_try. cbv zeta.
  set (n := toLowerCase (name f)). split; intros H.
  - rewrite H. reflexivity.
  - assert (E1 : endsWith n ".docx" = false) by ext_false H.
    assert (E2 : endsWith n ".xlsx" = false) by ext_false H.
    assert (E3 : endsWith n ".txt" = false) by ext_false H.
    rewrite E1, E2, E3, H. vm_compute. reflexivity.
Qed.

Lemma extraction_catch_err (m : option string) (t : string) :
  extraction_catch m <> Ok t.
Proof.
  unfold extraction_catch. destruct m as [m|]; [|discriminate].
  repeat match goal with |- context [if ?b then _ else _] => destruct b end;
  discriminate.
Qed.

(** X5: a [.txt] file's text is returned exactly as [fileToText] read it;
    every other text [extractTextFromFile] resolves with (DOCX, XLSX, PDF) is
    trimmed: [trim] leaves it unchanged. *)
Theorem extract_trimmed k dx xl tx du pr (f : File) (t : string) :
  extractTextFromFile k dx xl tx du pr f = Ok t ->
  (endsWith (toLowerCase (name f)) ".txt" = true -> tx f = Resolved t) /\
  (endsWith (toLowerCase (name f)) ".txt" = false -> trim t = t).
Proof.
  unfold extractTextFromFile.
  destruct (extraction_try k dx xl tx du pr f) as [s|m] eqn:Ex;
    [|intros H; exfalso; exact (extraction_catch_err m t H)].
  intros [= <-]. unfold extraction_try in Ex. cbv zeta in Ex.
  set (n := toLowerCase (name f)) in *.
  split; intros H.
  - assert (E1 : endsWith n ".docx" = false) by ext_false H.
    assert (E2 : endsWith n ".xlsx" = false) by ext_false H.
    rewrite E1, E2, H in Ex. exact Ex.
  - rewrite H in Ex.
    destruct (endsWith n ".docx").
    { destruct (dx f); [|discriminate]. injection Ex as <-. apply trim_idempotent. }
    destruct (endsWith n ".xlsx").
    { destruct (xl f); [|discriminate]. injection Ex as <-. apply trim_idempotent. }
    destruct (endsWith n ".pdf"); [|destruct (_ || _); discriminate].
    destruct (negb k); [discriminate|].
    destruct (du f); [|discriminate].
    destruct (pr _) as [[t'|]|]; [| injection Ex as <-; reflexivity | discriminate].
    destruct (truthy (trim t')); injection Ex as <-;
      [apply trim_idempotent | reflexivity].
Qed.

(** X2: a queue item holding an HWP or PPTX file and no text ends in [error]
    with "파일 읽기 실패: " followed by the HWP/PPTX message; the only gateway
    call of its run is the extraction. *)
Theorem hwp_item_fails k dx xl tx du pr translate_request tts_request
    decodeAudioData (it : QueueItem) (f : File) :
  file it = Some f -> originalText it = "" ->
  endsWith (toLowerCase (name f)) ".hwp" = true \/
  endsWith (toLowerCase (name f)) ".pptx" = true ->
  let ex := extractTextFromFile k dx xl tx du pr in
  status (final_item k ex translate_request tts_request decodeAudioData it) = error /\
  item_error (final_item k ex translate_request tts_request decodeAudioData it) =
    Some ("파일 읽기 실패: " ++ msg_hwp) /\
  events k ex translate_request tts_request decodeAudioData it = [EExtract f].
Proof.
  intros Hf Ho Hx. cbv zeta.
  pose proof (extraction_hwp k dx xl tx du pr f Hx) as He.
  unfold_pipeline. rewrite Hf, Ho. cbn beta iota zeta.
  rewrite He. cbn beta iota zeta. vm_compute. repeat split.
Qed.

Lemma prefix_nil (r : string) : prefix "" r = true.
Proof. now destruct r. Qed.

Lemma split_on_none (c : ascii) (s : string) :
  includes s (String c "") = false -> split_on c s = [s].
Proof.
  induction s as [|d r IH]; simpl; [reflexivity|].
  intros H. apply orb_false_iff in H as [Hp Hr].
  destruct (ascii_dec c d) as [<-|Hcd]; [now rewrite prefix_nil in Hp|].
  replace (Ascii.eqb d c) with false
    by (symmetry; apply Ascii.eqb_neq; congruence).
  now rewrite (IH Hr).
Qed.

Lemma split_on_app (c : ascii) (p q : string) :
  includes p (String c "") = false ->
  split_on c (p ++ String c q) = p :: split_on c q.
Proof.
  induction p as [|d r IH]; simpl.
  - now rewrite Ascii.eqb_refl.
  - intros H. apply orb_false_iff in H as [Hp Hr].
    destruct (ascii_dec c d) as [<-|Hcd]; [now rewrite prefix_nil in Hp|].
    replace (Ascii.eqb d c) with false
      by (symmetry; apply Ascii.eqb_neq; congruence).
    now rewrite (IH Hr).
Qed.

(** X6: [fileToBase64] returns the part of the data URL after its comma:
    for a header and a payload without commas, [header,payload] gives back
    the payload, and a data URL with no comma gives [undefined]. *)
Theorem fileToBase64_roundtrip (header payload : string) :
  includes header "," = false -> includes payload "," = false ->
  fileToBase64_result (header ++ "," ++ payload) = Some payload /\
  fileToBase64_result header = None.
Proof.
  intros Hh Hp. unfold fileToBase64_result. simpl append.
  rewrite (split_on_app _ _ _ Hh), (split_on_none _ _ Hp), (split_on_none _ _ Hh).
  split; reflexivity.
Qed.

(** X7: [translateSafetyText] rejects only with the API-key message or a
    message starting "번역 실패: "; a result it resolves with is the trimmed,
    non-empty model response, so [trim] leaves it unchanged. *)
Theorem translate_outcomes (apiKeyValid : bool)
    (translate_request : string -> TargetLanguage -> Result string)
    (text : string) (lang : TargetLanguage) :
  (forall m, translateSafetyText apiKeyValid translate_request text lang = Err m ->
     m = msg_api_key \/ prefix "번역 실패: " m = true) /\
  (forall t, translateSafetyText apiKeyValid translate_request text lang = Ok t ->
     trim t = t /\ apiKeyValid = true /\
     exists w, translate_request text lang = Ok w /\ truthy w = true /\ t = trim w).
Proof.
  unfold translateSafetyText. split.
  - intros m. destruct apiKeyValid; cbn [negb]; [|intros [= <-]; now left].
    destruct (translate_request text lang) as [w|e].
    + destruct (truthy w); intros [= <-]; right;
      first [exact (prefix_app "번역 실패: " _) | vm_compute; reflexivity].
    + intros [= <-]. right. exact (prefix_app "번역 실패: " _).
  - intros t. destruct apiKeyValid; cbn [negb]; [|discriminate].
    destruct (translate_request text lang) as [w|e]; [|discriminate].
    destruct (truthy w) eqn:Hw; [|discriminate]. intros [= <-].
    split; [apply trim_idempotent|]. split; [reflexivity|].
    exists w. auto.
Qed.

(** X9: [generateSpeech] rejects with the API-key message, the too-long
    message, or a message starting "음성 생성에 실패했습니다."; it resolves only
    with a valid key, a text of at most 4000 characters, and a returned
    payload that decodes to that buffer. *)
Theorem generateSpeech_outcomes (apiKeyValid : bool)
    (tts_request : string -> Result (option string))
    (decodeAudioData : string -> option AudioBuffer) (text : string) :
  (forall m, generateSpeech apiKeyValid tts_request decodeAudioData text = Err m ->
     m = msg_api_key \/ m = msg_too_long \/
     prefix "음성 생성에 실패했습니다." m = true) /\
  (forall b, generateSpeech apiKeyValid tts_request decodeAudioData text = Ok b ->
     apiKeyValid = true /\ (String.length text <= 4000)%nat /\
     exists b64, tts_request text = Ok (Some b64) /\ decodeAudioData b64 = Some b).
Proof.
  unfold generateSpeech. split.
  - intros m H. destruct apiKeyValid; cbn [negb] in H; [|injection H as <-; now left].
    destruct (4000 <? String.length text)%nat; [injection H as <-; now right; left|].
    right; right. unfold tts_error_message in H.
    destruct (tts_request text) as [[b64|]|e];
      [destruct (decodeAudioData b64); [discriminate H|] | |];
      injection H as <-;
      repeat match goal with |- context [if ?b then _ else _] => destruct b end;
      first [exact (prefix_app "음성 생성에 실패했습니다." _) | vm_compute; reflexivity].
  - intros b. destruct apiKeyValid; cbn [negb]; [|discriminate].
    destruct (4000 <? String.length text)%nat eqn:Hl; [discriminate|].
    apply Nat.ltb_ge in Hl.
    destruct (tts_request text) as [[b64|]|e]; [|discriminate|discriminate].
    destruct (decodeAudioData b64) as [b'|] eqn:Hd; [|discriminate].
    intros [= <-]. repeat split; [lia|]. exists b64; auto.
Qed.

Lemma truthy_trim (s : string) : truthy (trim s) = true -> truthy s = true.
Proof. destruct s; [discriminate | reflexivity]. Qed.

Section ExtraPipeline.
Variable apiKeyValid : bool.
Variable extractTextFromFile : File -> Result string.
Variable translate_request : string -> TargetLanguage -> Result string.
Variable tts_request : string -> Result (option string).
Variable decodeAudioData : string -> option AudioBuffer.

Local Abbreviation final := (final_item apiKeyValid extractTextFromFile
  translate_request tts_request decodeAudioData).
Local Abbreviation evs := (events apiKeyValid extractTextFromFile
  translate_request tts_request decodeAudioData).
Local Abbreviation log := (process_item apiKeyValid extractTextFromFile
  translate_request tts_request decodeAudioData).

Lemma text_item_run (it : QueueItem) :
  truthy (originalText it) = true ->
  (forall f, ~ In (EExtract f) (evs it)) /\
  originalText (final it) = originalText it /\
  (truthy (trim (originalText it)) = true ->
     In (set_status translating) (log_updates (log it)) /\
     (targetLanguage it <> KOREAN ->
        hd_error (evs it) = Some (ETranslate (originalText it) (targetLanguage it)))).
Proof.
  intros Ht. unfold_pipeline.
  rewrite Ht. cbn [negb andb].
  replace (match file it with Some _ => _ | None => _ end) with
    (fun l : Log => (l, Ok (originalText it) : Result string))
    by (destruct (file it); reflexivity).
  cbn beta iota. rewrite Ht. cbn [negb andb].
  destruct (truthy (trim (originalText it))) eqn:Htr; cbn [negb].
  2: { simpl. split; [intros f Hin; exact Hin|].
       split; [reflexivity | discriminate]. }
  destruct (TargetLanguage_eqb (targetLanguage it) KOREAN) eqn:Hk; cbn beta iota.
  - split_pipeline. all: simpl.
    all: split; [intros f Hin; repeat (destruct Hin as [Hin|Hin]; [discriminate Hin|]);
                 contradiction|].
    all: split; [reflexivity|].
    all: intros _; split; [tauto|].
    all: intros Hn; exfalso; apply Hn; destruct (targetLanguage it); first [reflexivity | discriminate].
  - split_pipeline. all: simpl.
    all: split; [intros f Hin; repeat (destruct Hin as [Hin|Hin]; [discriminate Hin|]);
                 contradiction|].
    all: split; [reflexivity|].
    all: intros _; split; [tauto | reflexivity].
Qed.


(** X10: an item with no file whose text is empty or only white space ends
    in [error] without any gateway call: "번역할 텍스트가 없습니다." for the
    empty text, the empty-content message otherwise; its [audioBuffer] is
    kept. *)
Theorem textless_item_fails (it : QueueItem) :
  file it = None -> truthy (trim (originalText it)) = false ->
  evs it = [] /\ status (final it) = error /\
  audioBuffer (final it) = audioBuffer it /\
  item_error (final it) =
    Some (if truthy (originalText it) then msg_empty else msg_no_text).
Proof.
  intros Hf Ht. unfold_pipeline. rewrite Hf. cbn beta iota.
  unfold has_file. rewrite Hf.
  destruct (truthy (originalText it)) eqn:Ho; cbn [negb andb]; cbn beta iota.
  - rewrite Ht. cbn [negb]. vm_compute. repeat split.
  - vm_compute. repeat split.
Qed.

(** X8: a translation response made only of white space is not rejected:
    it is trimmed to the empty string, which is stored as [translatedText],
    sent to speech synthesis, and the item ends [completed]. *)
Theorem blank_translation_accepted (it : QueueItem) (t w : string) :
  apiKeyValid = true ->
  In (ETranslate t (targetLanguage it)) (evs it) ->
  translate_request t (targetLanguage it) = Ok w ->
  truthy w = true -> trim w = "" ->
  translatedText (final it) = Some "" /\ In (ESynthesize "") (evs it) /\
  status (final it) = completed.
Proof.
  intros Hk Hin Htr Hw Hb.
  assert (Ht : translateSafetyText apiKeyValid translate_request t
                 (targetLanguage it) = Ok "")
    by (unfold translateSafetyText; rewrite Hk, Htr, Hw, Hb; reflexivity).
  revert Hin. unfold_pipeline. split_pipeline.
  all: simpl; intros Hin.
  all: repeat (destruct Hin as [Hin|Hin]; [try discriminate Hin|]).
  all: try contradiction.
  all: injection Hin; intros; subst.
  all: try congruence.
  all: repeat split; try congruence.
  all: rewrite Ht in *; match goal with H1 : Ok "" = Ok ?x |- _ => injection H1 as <- end.
  all: simpl; tauto.
Qed.

(** X14: the statuses a run sets move strictly forward (extracting,
    translating, speaking, then completed or error), and the item ends in
    [completed] or [error], the last status set. *)
Theorem status_progression (it : QueueItem) :
  Sorted (fun a b => (status_rank a < status_rank b)%nat) (statuses_set (log it)) /\
  last (statuses_set (log it)) idle = status (final it) /\
  (status (final it) = completed \/ status (final it) = error).
Proof.
  unfold statuses_set. unfold_pipeline. split_pipeline.
  all: simpl.
  all: split; [repeat (constructor; simpl; try lia) | split; [reflexivity | tauto]].
Qed.

End ExtraPipeline.

Section ExtraQueue.
Variable apiKeyValid : bool.
Variable extractTextFromFile : File -> Result string.
Variable translate_request : string -> TargetLanguage -> Result string.
Variable tts_request : string -> Result (option string).
Variable decodeAudioData : string -> option AudioBuffer.

Local Abbreviation final := (final_item apiKeyValid extractTextFromFile
  translate_request tts_request decodeAudioData).
Local Abbreviation evs := (events apiKeyValid extractTextFromFile
  translate_request tts_request decodeAudioData).
Local Abbreviation log := (process_item apiKeyValid extractTextFromFile
  translate_request tts_request decodeAudioData).
Local Abbreviation next := (processNext apiKeyValid extractTextFromFile
  translate_request tts_request decodeAudioData).
Local Abbreviation run := (drive apiKeyValid extractTextFromFile
  translate_request tts_request decodeAudioData).

(** X11: an item whose [originalText] is non-empty is never extracted and
    keeps its text; when the text is not blank the run reaches the
    translating stage, and for a language other than Korean the first
    gateway call translates the whole text, which is not clipped to
    [MAX_INPUT_LENGTH]. *)
Theorem text_item_skips_extraction (it : QueueItem) :
  truthy (originalText it) = true ->
  (forall f, ~ In (EExtract f) (evs it)) /\
  originalText (final it) = originalText it /\
  (truthy (trim (originalText it)) = true ->
     In (set_status translating) (log_updates (log it)) /\
     (targetLanguage it <> KOREAN ->
        hd_error (evs it) = Some (ETranslate (originalText it) (targetLanguage it)))).
Proof. apply text_item_run. Qed.

(** X12: [addManualInput] ignores blank input (the state and the field stay
    as they are); otherwise it appends one idle item with the untrimmed input
    and the selected language, clears [globalError] and the field, and that
    item's run makes no extraction call, reaches translating, and (not
    Korean) first translates exactly the input. *)
Theorem addManualInput_spec (newId manualInput : string) (s : AppState) :
  (truthy (trim manualInput) = false ->
     addManualInput newId manualInput s = (s, manualInput)) /\
  (truthy (trim manualInput) = true ->
     let item := mkQueueItem newId None manual_fileName manualInput None
                   (selectedLanguage s) idle None None in
     snd (addManualInput newId manualInput s) = "" /\
     queue (fst (addManualInput newId manualInput s)) = (queue s ++ [item])%list /\
     globalError (fst (addManualInput newId manualInput s)) = None /\
     (forall f, ~ In (EExtract f) (evs item)) /\
     In (set_status translating) (log_updates (log item)) /\
     (selectedLanguage s <> KOREAN ->
        hd_error (evs item) = Some (ETranslate manualInput (selectedLanguage s)))).
Proof.
  unfold addManualInput. split; intros Ht.
  - now rewrite Ht.
  - rewrite Ht. cbv zeta. cbn [negb fst snd].
    destruct (text_item_run apiKeyValid extractTextFromFile translate_request
                tts_request decodeAudioData
                (mkQueueItem newId None manual_fileName manualInput None
                   (selectedLanguage s) idle None None) (truthy_trim _ Ht))
      as (Hx & _ & Hr).
    destruct (Hr Ht) as [Htr Hen].
    repeat split; auto.
Qed.

(** X13: the "other language" buttons of an item are shown only when it has
    text and is neither extracting nor in error; they offer each language
    but the item's own exactly once (five of them). A button appends one idle
    job with the item's file, name and text, whose run never extracts, keeps
    the text, and (not Korean) first translates that text. *)
Theorem translation_job (item : QueueItem) (newId : string)
    (lang : TargetLanguage) (s : AppState) :
  (In lang (translation_options item) <->
     truthy (originalText item) = true /\ status item <> extracting /\
     status item <> error /\ lang <> targetLanguage item) /\
  NoDup (translation_options item) /\
  (translation_options item = [] \/ List.length (translation_options item) = 5%nat) /\
  (In lang (translation_options item) ->
     let job := mkQueueItem newId (file item) (fileName item) (originalText item)
                  None lang idle None None in
     queue (addTranslationJob newId item lang s) = (queue s ++ [job])%list /\
     (forall f, ~ In (EExtract f) (evs job)) /\
     originalText (final job) = originalText item /\
     (truthy (trim (originalText item)) = true -> lang <> KOREAN ->
        hd_error (evs job) = Some (ETranslate (originalText item) lang))).
Proof.
  assert (Hopt : In lang (translation_options item) <->
     truthy (originalText item) = true /\ status item <> extracting /\
     status item <> error /\ lang <> targetLanguage item).
  { unfold translation_options. remember (targetLanguage item) as tl.
    destruct (truthy (originalText item)) eqn:Ho;
      [|cbn; split; [contradiction | intros [H _]; discriminate H]].
    destruct (status item); cbn [andb negb ProcessStatus_eqb];
      try (split; [contradiction | intros (_ & H1 & H2 & _); congruence]).
    all: rewrite filter_In; split.
    all: try (intros [_ Hn]; repeat split; try discriminate; intros E;
              subst lang; destruct tl; discriminate Hn).
    all: intros (_ & _ & _ & Hn); split;
         [destruct lang; in_list
         | destruct lang, tl; try reflexivity; exfalso; apply Hn; reflexivity]. }
  split; [exact Hopt|]. split; [|split].
  - unfold translation_options.
    destruct (_ && _ && _); [|constructor].
    apply NoDup_filter. unfold all_languages.
    repeat constructor; simpl; intuition discriminate.
  - unfold translation_options.
    destruct (_ && _ && _); [|now left]. right.
    destruct (targetLanguage item); reflexivity.
  - intros Hin. cbv zeta. apply Hopt in Hin as (Ho & _ & _ & _).
    destruct (text_item_run apiKeyValid extractTextFromFile translate_request
                tts_request decodeAudioData
                (mkQueueItem newId (file item) (fileName item) (originalText item)
                   None lang idle None None) Ho) as (Hx & Hot & Hr).
    split; [reflexivity|]. split; [exact Hx|]. split; [exact Hot|].
    intros Ht Hk. exact (proj2 (Hr Ht) Hk).
Qed.

End ExtraQueue.

Lemma merge_key (y : QueueItem) (u : Update) : item_key (merge y u) = item_key y.
Proof. reflexivity. Qed.

Lemma fold_merge_key (us : list Update) (y : QueueItem) :
  item_key (fold_left merge us y) = item_key y.
Proof.
  revert y; induction us as [|u us IH]; intros y; simpl; [reflexivity|].
  now rewrite IH.
Qed.

Lemma fold_updateItemStatus (i : string) (us : list Update) (q : list QueueItem) :
  fold_left (fun q u => updateItemStatus i u q) us q =
  map (fun y => if String.eqb (id y) i then fold_left merge us y else y) q.
Proof.
  revert q; induction us as [|u us IH]; intros q; simpl.
  - rewrite <- (map_id q) at 1. apply map_ext. intros y.
    now destruct (String.eqb (id y) i).
  - rewrite IH. unfold updateItemStatus. rewrite map_map. apply map_ext.
    intros y. destruct (String.eqb (id y) i) eqn:E; simpl.
    + now rewrite E.
    + now rewrite E.
Qed.

Section ExtraDriving.
Variable apiKeyValid : bool.
Variable extractTextFromFile : File -> Result string.
Variable translate_request : string -> TargetLanguage -> Result string.
Variable tts_request : string -> Result (option string).
Variable decodeAudioData : string -> option AudioBuffer.

Local Abbreviation final := (final_item apiKeyValid extractTextFromFile
  translate_request tts_request decodeAudioData).
Local Abbreviation log := (process_item apiKeyValid extractTextFromFile
  translate_request tts_request decodeAudioData).
Local Abbreviation next := (processNext apiKeyValid extractTextFromFile
  translate_request tts_request decodeAudioData).
Local Abbreviation run := (drive apiKeyValid extractTextFromFile
  translate_request tts_request decodeAudioData).

(** X15: a scan changes only the items with the selected item's id (the
    run's updates merged into them); the queue keeps its length, order,
    ids, files, names and languages, and holds the selected item's final
    state. *)
Theorem processNext_touches_selected (s : AppState) (it : QueueItem) :
  isProcessingQueue s = true -> find is_idle (queue s) = Some it ->
  queue (fst (next s)) =
    map (fun y => if String.eqb (id y) (id it)
                  then fold_left merge (log_updates (log it)) y else y) (queue s) /\
  map item_key (queue (fst (next s))) = map item_key (queue s) /\
  In (final it) (queue (fst (next s))).
Proof.
  intros Hrun Hf. unfold processNext. rewrite Hrun, Hf. simpl.
  unfold process_item'. rewrite fold_updateItemStatus.
  split; [reflexivity|]. split.
  - rewrite map_map. apply map_ext. intros y.
    destruct (String.eqb (id y) (id it)); [apply fold_merge_key | reflexivity].
  - destruct (find_first _ _ _ Hf) as (pre & post & Hq & _ & _).
    rewrite Hq, map_app. apply in_or_app. right. simpl.
    rewrite String.eqb_refl. left. reflexivity.
Qed.

(** X16: starting a stopped processor with [toggleProcessing] processes at
    most one item, whatever the number of steps: with no idle item it stops
    at once; otherwise it runs the first idle item and then stays
    "running" on it. *)
Theorem start_processes_one_item (s : AppState) (n : nat) :
  isProcessingQueue s = false ->
  (find is_idle (queue s) = None ->
     run (S n) (toggleProcessing s) = with_processing (toggleProcessing s) false None) /\
  (forall it, find is_idle (queue s) = Some it -> id it <> "" ->
     run (S n) (toggleProcessing s) = fst (next (toggleProcessing s)) /\
     isProcessingQueue (run (S n) (toggleProcessing s)) = true /\
     currentItemId (run (S n) (toggleProcessing s)) = Some (id it)).
Proof.
  intros Hoff. unfold toggleProcessing. rewrite Hoff.
  split.
  - intros Hf. simpl. unfold processNext. simpl. rewrite Hf. reflexivity.
  - intros it Hf Hid.
    assert (Hrun : isProcessingQueue (with_processing s true None) = true) by reflexivity.
    destruct (processNext_cancels apiKeyValid extractTextFromFile translate_request
                tts_request decodeAudioData _ it Hrun Hf Hid) as [Hc Hg].
    simpl. destruct (next (with_processing s true None)) as [s' c] eqn:E.
    simpl in Hc, Hg. subst c. rewrite Hg. simpl.
    split; [reflexivity|].
    revert E. unfold processNext. simpl. rewrite Hf. intros E; injection E; intros; subst.
    split; reflexivity.
Qed.

End ExtraDriving.

(** X17: once [removeFromQueue] has removed an id, every later
    [updateItemStatus] for that id (from a run still in flight) leaves the
    queue unchanged. *)
Theorem update_after_remove (m : Model) (itemId : string) (us : list Update) :
  let q := queue (app (removeFromQueue m itemId)) in
  fold_left (fun q u => updateItemStatus itemId u q) us q = q.
Proof.
  cbv zeta. rewrite fold_updateItemStatus.
  rewrite <- map_id. apply map_ext_in. intros y Hy.
  unfold removeFromQueue in Hy. simpl in Hy.
  apply filter_In in Hy as [_ Hy].
  destruct (String.eqb (id y) itemId); [discriminate Hy | reflexivity].
Qed.

Lemma build_items_shape (genId : nat -> string) (n : nat) (lang : TargetLanguage)
    (files : list File) :
  Forall2 (fun f it => file it = Some f /\ fileName it = name f /\
             originalText it = "" /\ status it = idle /\ targetLanguage it = lang /\
             translatedText it = None /\ item_error it = None /\ audioBuffer it = None)
    (filter isValidFileType files) (build_items genId n lang files).
Proof.
  revert n; induction files as [|f fs IH]; intros n; simpl; [constructor|].
  destruct (isValidFileType f); [constructor; [repeat split | apply IH] | apply IH].
Qed.

(** X18: [handleFiles] on a non-empty list with no supported file only sets
    [globalError] to the unsupported-type message; otherwise it clears
    [globalError] and appends, in order, one fresh idle item per supported
    file (its name, no text, the selected language), dropping the others. *)
Theorem handleFiles_shape (genId : nat -> string) (files : list File) (s : AppState) :
  let s' := handleFiles genId (Some files) s in
  (files <> [] -> filter isValidFileType files = [] ->
     queue s' = queue s /\ globalError s' = Some msg_unsupported) /\
  (files = [] \/ filter isValidFileType files <> [] ->
     globalError s' = None /\
     exists items, queue s' = (queue s ++ items)%list /\
       Forall2 (fun f it => file it = Some f /\ fileName it = name f /\
                  originalText it = "" /\ status it = idle /\
                  targetLanguage it = selectedLanguage s /\
                  translatedText it = None /\ item_error it = None /\
                  audioBuffer it = None)
         (filter isValidFileType files) items).
Proof.
  cbv zeta. unfold handleFiles.
  pose proof (build_items_shape genId 0 (selectedLanguage s) files) as Hs.
  assert (Hl := Forall2_length Hs).
  split.
  - intros Hne Hnil. rewrite Hnil in Hl. simpl in Hl.
    rewrite <- Hl. simpl. destruct files; [contradiction|]. simpl.
    split; reflexivity.
  - intros Hc.
    destruct (Nat.eqb (List.length (build_items genId 0 (selectedLanguage s) files)) 0
              && (0 <? List.length files))%nat eqn:E.
    + exfalso. apply andb_true_iff in E as [E1 E2].
      apply Nat.eqb_eq in E1. apply Nat.ltb_lt in E2.
      destruct Hc as [->|Hc]; [simpl in E2; lia|].
      rewrite <- Hl in E1. apply length_zero_iff_nil in E1. contradiction.
    + split; [reflexivity|]. eexists; split; [reflexivity | exact Hs].
Qed.

(** X19: for a buffer with a positive duration, a progress frame sets the
    progress between 0 and 100, requests the next frame exactly when it is
    below 100, and sets it to 100 with no further frame once the whole
    buffer has played. *)
Theorem updateProgress_bounded (p : Player) (src : Source) :
  audioSourceRef p = Some src -> animationFrameRef p = true ->
  0 < duration (src_buffer src) -> 0 <= totalElapsed p ->
  let p' := updateProgress p in
  0 <= playbackProgress p' <= 100 /\
  (animationFrameRef p' = true <-> playbackProgress p' < 100) /\
  (duration (src_buffer src) <= totalElapsed p ->
     playbackProgress p' == 100 /\ animationFrameRef p' = false).
Proof.
  intros Hs Ha Hd Ht. cbv zeta. unfold updateProgress, progress_sample.
  rewrite Hs, Ha. simpl. unfold progress_of, qmin.
  set (d := duration (src_buffer src)) in *.
  set (t := totalElapsed p) in *.
  assert (Hx : 0 <= t / d * 100).
  { apply Qmult_le_0_compat; [|discriminate].
    apply Qmult_le_0_compat; [exact Ht|]. apply Qinv_le_0_compat, Qlt_le_weak, Hd. }
  destruct (Qle_bool (t / d * 100) 100) eqn:E.
  - apply Qle_bool_iff in E as E'.
    split; [split; assumption|]. split.
    + split; intros H.
      * apply negb_true_iff in H.
        apply Qnot_le_lt. intros C. apply Qle_bool_iff in C. congruence.
      * apply negb_true_iff. destruct (Qle_bool 100 (t / d * 100)) eqn:C; [|reflexivity].
        apply Qle_bool_iff in C. exfalso. exact (Qlt_not_le _ _ H C).
    + intros Hdt.
      assert (H1 : 1 <= t / d) by (apply Qle_shift_div_l; [exact Hd | now rewrite Qmult_1_l]).
      assert (H100 : 100 <= t / d * 100).
      { setoid_replace 100 with (1 * 100) at 1 by reflexivity.
        apply Qmult_le_compat_r; [exact H1 | discriminate]. }
      assert (Heq : t / d * 100 == 100) by (apply Qle_antisym; assumption).
      split; [exact Heq|].
      apply Qle_bool_iff in H100. now rewrite H100.
  - split; [split; discriminate|]. split.
    + replace (Qle_bool 100 100) with true by reflexivity. simpl.
      split; [discriminate | intros H; exfalso; apply (Qlt_irrefl 100), H].
    + intros _. split; reflexivity.
Qed.

(** X20: a source that [playAudio] starts and that plays to the end of its
    buffer resets the session ([stopAudio]) when the click's render had
    [isPaused = false], and leaves everything as it is when it had
    [isPaused = true] (a resume, or a play on another item while one is
    paused). *)
Theorem natural_end_reset (p : Player) (buffer : AudioBuffer) (itemId : string)
    (resume : bool) (dt : Q) :
  duration buffer <= (if resume then offsetRef p else 0) + dt ->
  let q := advance dt (playAudio p buffer itemId resume) in
  natural_end q = if isPaused p then q else stopAudio q.
Proof.
  intros Hd. cbv zeta.
  assert (Hr : Qle_bool (duration buffer)
                 (src_startOffset (mkSource buffer (Some (isPaused p))
                    (if resume then offsetRef (playAudio_release p itemId resume) else 0))
                  + (currentTime (playAudio_release p itemId resume) + dt
                     - currentTime (playAudio_release p itemId resume))) = true).
  { apply Qle_bool_iff. simpl.
    assert (Ho : (if resume then offsetRef (playAudio_release p itemId resume) else 0)
                 == (if resume then offsetRef p else 0)).
    { destruct resume; [|reflexivity]. unfold playAudio_release. simpl.
      destruct (audioSourceRef p); reflexivity. }
    rewrite Ho. eapply Qle_trans; [exact Hd|]. apply Qle_lteq. right. ring. }
  unfold natural_end, reached_end. simpl. simpl in Hr. rewrite Hr.
  destruct (isPaused p); reflexivity.
Qed.

(** ** Witnesses of the further properties *)

Lemma extract_hwp_rejected_witness :
  endsWith (toLowerCase (name (mkFile "report.HWP" 20000))) ".hwp" = true /\
  extractTextFromFile true padded_docx no_rows no_read no_read no_pdf
    (mkFile "report.HWP" 20000) = Err msg_hwp.
Proof.
  assert (H : endsWith (toLowerCase (name (mkFile "report.HWP" 20000))) ".hwp" = true)
    by (vm_compute; reflexivity).
  exact (conj H (extract_hwp_rejected true padded_docx no_rows no_read no_read no_pdf _ (or_introl H))).
Defined.

Lemma hwp_item_fails_witness :
  file hwp_item = Some (mkFile "report.hwp" 20000) /\ originalText hwp_item = "" /\
  status (final_item true (extractTextFromFile true padded_docx no_rows no_read
            no_read no_pdf) demo_translate demo_tts demo_decode hwp_item) = error.
Proof.
  assert (H1 : file hwp_item = Some (mkFile "report.hwp" 20000)) by reflexivity.
  assert (H2 : originalText hwp_item = "") by reflexivity.
  assert (H3 : endsWith (toLowerCase (name (mkFile "report.hwp" 20000))) ".hwp" = true)
    by (vm_compute; reflexivity).
  destruct (hwp_item_fails true padded_docx no_rows no_read no_read no_pdf
              demo_translate demo_tts demo_decode hwp_item _ H1 H2 (or_introl H3))
    as (Hs & _).
  exact (conj H1 (conj H2 Hs)).
Defined.

Lemma extract_unsupported_witness :
  isValidFileType photo = false /\
  extractTextFromFile true padded_docx no_rows no_read no_read no_pdf photo =
  Err (msg_read_failed ++ msg_unsupported_format).
Proof.
  assert (H : isValidFileType photo = false) by reflexivity.
  exact (conj H (extract_unsupported true padded_docx no_rows no_read no_read no_pdf
                   photo H)).
Defined.

Lemma extract_key_pdf_only_witness :
  endsWith (toLowerCase (name big_manual)) ".pdf" = true /\
  extractTextFromFile false padded_docx no_rows no_read no_read no_pdf big_manual =
  Err msg_api_key.
Proof.
  assert (H : endsWith (toLowerCase (name big_manual)) ".pdf" = true)
    by (vm_compute; reflexivity).
  exact (conj H (proj2 (extract_key_pdf_only false padded_docx no_rows no_read
                          no_read no_pdf big_manual) H)).
Defined.

Lemma extract_trimmed_witness :
  extractTextFromFile true padded_docx no_rows no_read no_read no_pdf safety_docx =
    Ok "Wear a helmet." /\
  trim "Wear a helmet." = "Wear a helmet.".
Proof.
  assert (H : extractTextFromFile true padded_docx no_rows no_read no_read no_pdf
                safety_docx = Ok "Wear a helmet.") by (vm_compute; reflexivity).
  assert (Ht : endsWith (toLowerCase (name safety_docx)) ".txt" = false)
    by (vm_compute; reflexivity).
  exact (conj H (proj2 (extract_trimmed true padded_docx no_rows no_read no_read
                          no_pdf safety_docx _ H) Ht)).
Defined.

Lemma fileToBase64_roundtrip_witness :
  includes "data:application/pdf;base64" "," = false /\
  includes "JVBERi0xLjQ=" "," = false /\
  fileToBase64_result "data:application/pdf;base64,JVBERi0xLjQ=" = Some "JVBERi0xLjQ=".
Proof.
  assert (H1 : includes "data:application/pdf;base64" "," = false)
    by (vm_compute; reflexivity).
  assert (H2 : includes "JVBERi0xLjQ=" "," = false) by (vm_compute; reflexivity).
  exact (conj H1 (conj H2 (proj1 (fileToBase64_roundtrip _ _ H1 H2)))).
Defined.

Lemma translate_outcomes_witness :
  translateSafetyText false demo_translate "Wear a helmet." ENGLISH = Err msg_api_key /\
  (msg_api_key = msg_api_key \/ prefix "번역 실패: " msg_api_key = true).
Proof.
  assert (H : translateSafetyText false demo_translate "Wear a helmet." ENGLISH =
              Err msg_api_key) by reflexivity.
  exact (conj H (proj1 (translate_outcomes false demo_translate "Wear a helmet."
                          ENGLISH) _ H)).
Defined.

Lemma generateSpeech_outcomes_witness :
  generateSpeech true demo_tts demo_decode long_speech = Err msg_too_long /\
  (msg_too_long = msg_api_key \/ msg_too_long = msg_too_long \/
   prefix "음성 생성에 실패했습니다." msg_too_long = true).
Proof.
  assert (H : generateSpeech true demo_tts demo_decode long_speech = Err msg_too_long)
    by (vm_compute; reflexivity).
  exact (conj H (proj1 (generateSpeech_outcomes true demo_tts demo_decode
                          long_speech) _ H)).
Defined.

Lemma textless_item_fails_witness :
  file blank_item = None /\ truthy (trim (originalText blank_item)) = false /\
  item_error (final_item true demo_extract demo_translate demo_tts demo_decode
                blank_item) = Some msg_empty.
Proof.
  assert (H1 : file blank_item = None) by reflexivity.
  assert (H2 : truthy (trim (originalText blank_item)) = false)
    by (vm_compute; reflexivity).
  destruct (textless_item_fails true demo_extract demo_translate demo_tts demo_decode
              blank_item H1 H2) as (_ & _ & _ & He).
  exact (conj H1 (conj H2 He)).
Defined.

Lemma blank_translation_accepted_witness :
  In (ETranslate "Wear a helmet." ENGLISH)
     (events true demo_extract blank_translate demo_tts demo_decode english_item) /\
  translatedText (final_item true demo_extract blank_translate demo_tts demo_decode
                    english_item) = Some "".
Proof.
  assert (H1 : In (ETranslate "Wear a helmet." (targetLanguage english_item))
     (events true demo_extract blank_translate demo_tts demo_decode english_item))
    by in_list.
  destruct (blank_translation_accepted true demo_extract blank_translate demo_tts
              demo_decode english_item "Wear a helmet." newline eq_refl H1 eq_refl
              eq_refl eq_refl) as (Ht & _).
  exact (conj H1 Ht).
Defined.

Lemma text_item_skips_extraction_witness :
  truthy (originalText english_item) = true /\
  hd_error (events true demo_extract demo_translate demo_tts demo_decode english_item)
  = Some (ETranslate "Wear a helmet." ENGLISH).
Proof.
  assert (H1 : truthy (originalText english_item) = true) by reflexivity.
  assert (H2 : truthy (trim (originalText english_item)) = true)
    by (vm_compute; reflexivity).
  assert (H3 : targetLanguage english_item <> KOREAN) by discriminate.
  destruct (text_item_skips_extraction true demo_extract demo_translate demo_tts
              demo_decode english_item H1) as (_ & _ & Hr).
  exact (conj H1 (proj2 (Hr H2) H3)).
Defined.

Lemma addManualInput_spec_witness :
  truthy (trim "  Wear a helmet. ") = true /\
  queue (fst (addManualInput "e5r6t7y8u" "  Wear a helmet. " demo_state)) =
  (queue demo_state ++ [mkQueueItem "e5r6t7y8u" None manual_fileName
                          "  Wear a helmet. " None CHINESE idle None None])%list.
Proof.
  assert (H : truthy (trim "  Wear a helmet. ") = true) by (vm_compute; reflexivity).
  destruct (proj2 (addManualInput_spec true demo_extract demo_translate demo_tts
                     demo_decode "e5r6t7y8u" "  Wear a helmet. " demo_state) H)
    as (_ & Hq & _).
  exact (conj H Hq).
Defined.

Lemma translation_job_witness :
  In ENGLISH (translation_options done_item) /\
  originalText (final_item true demo_extract demo_translate demo_tts demo_decode
     (mkQueueItem "r5t6y7u8i" None manual_fileName "Wear a helmet." None ENGLISH
        idle None None)) = "Wear a helmet.".
Proof.
  assert (H : In ENGLISH (translation_options done_item)) by in_list.
  destruct (translation_job true demo_extract demo_translate demo_tts demo_decode
              done_item "r5t6y7u8i" ENGLISH demo_state) as (_ & _ & _ & Hj).
  destruct (Hj H) as (_ & _ & Ho & _).
  exact (conj H Ho).
Defined.

Lemma processNext_touches_selected_witness :
  isProcessingQueue (toggleProcessing demo_state) = true /\
  find is_idle (queue (toggleProcessing demo_state)) = Some hwp_item /\
  map item_key (queue (fst (processNext true demo_extract demo_translate demo_tts
                              demo_decode (toggleProcessing demo_state)))) =
  map item_key (queue demo_state).
Proof.
  assert (H1 : isProcessingQueue (toggleProcessing demo_state) = true) by reflexivity.
  assert (H2 : find is_idle (queue (toggleProcessing demo_state)) = Some hwp_item)
    by reflexivity.
  destruct (processNext_touches_selected true demo_extract demo_translate demo_tts
              demo_decode _ _ H1 H2) as (_ & Hk & _).
  exact (conj H1 (conj H2 Hk)).
Defined.

Lemma start_processes_one_item_witness :
  isProcessingQueue demo_state = false /\
  currentItemId (drive true demo_extract demo_translate demo_tts demo_decode 5
                   (toggleProcessing demo_state)) = Some "k3x9a1b2c".
Proof.
  assert (H1 : isProcessingQueue demo_state = false) by reflexivity.
  assert (H2 : find is_idle (queue demo_state) = Some hwp_item) by reflexivity.
  assert (H3 : id hwp_item <> "") by discriminate.
  destruct (proj2 (start_processes_one_item true demo_extract demo_translate demo_tts
                     demo_decode demo_state 4 H1) hwp_item H2 H3) as (_ & _ & Hc).
  exact (conj H1 Hc).
Defined.

Lemma handleFiles_shape_witness :
  filter isValidFileType [photo; big_manual] <> [] /\
  globalError (handleFiles (fun _ => "q1w2e3r4t") (Some [photo; big_manual])
                 demo_state) = None.
Proof.
  assert (H : filter isValidFileType [photo; big_manual] <> []) by discriminate.
  destruct (proj2 (handleFiles_shape (fun _ => "q1w2e3r4t") [photo; big_manual]
                     demo_state) (or_intror H)) as [Hg _].
  exact (conj H Hg).
Defined.

Lemma updateProgress_bounded_witness :
  audioSourceRef playing_player = Some (mkSource sample_buffer (Some false) 0) /\
  playbackProgress (updateProgress playing_player) <= 100.
Proof.
  assert (H1 : audioSourceRef playing_player =
               Some (mkSource sample_buffer (Some false) 0)) by reflexivity.
  assert (H2 : animationFrameRef playing_player = true) by reflexivity.
  assert (H3 : 0 < duration (src_buffer (mkSource sample_buffer (Some false) 0)))
    by reflexivity.
  assert (H4 : 0 <= totalElapsed playing_player) by discriminate.
  destruct (updateProgress_bounded playing_player _ H1 H2 H3 H4) as ([_ Hb] & _).
  exact (conj H1 Hb).
Defined.

Lemma natural_end_reset_witness :
  isPaused paused_player = true /\
  duration sample_buffer <= 0 + 3 /\
  natural_end (advance 3 (playAudio paused_player sample_buffer "k3x9a1b2c" false)) =
  advance 3 (playAudio paused_player sample_buffer "k3x9a1b2c" false).
Proof.
  assert (H1 : isPaused paused_player = true) by reflexivity.
  assert (H2 : duration sample_buffer <= 0 + 3) by discriminate.
  pose proof (natural_end_reset paused_player sample_buffer "k3x9a1b2c" false 3 H2)
    as Hn.
  cbv zeta in Hn. rewrite H1 in Hn.
  exact (conj H1 (conj H2 Hn)).
Defined.
